(** * Scripted dispatch of inbound opcodes: [src/lua/modules/modules.cpp]

    A shallow embedding of the classes [Module] (one handler record) and
    [Modules] (the registry keyed by recvbyte) together with the ambient
    services they call, and the verification of the registry's behaviour.

    Layout of the development:
    - machine integers and strings as the code uses them;
    - the handler record and its methods, as pure functions on the record;
    - the program state (object heap, registry map, players, logger, script
      environments) and a state monad with a fault outcome;
    - the methods of [Modules], in that monad;
    - invariants and the theorems about registration, clearing, the
      meaning of [loaded], the delay and dispatch;
    - further properties: allocation and lookup, reloading, the outcomes of
      a dispatch and of a configuration. *)

From stdpp Require Import gmap strings list fin_maps.
From Stdlib Require Import ZArith Lia.

Open Scope Z_scope.

(* ===================================================================== *)
(** ** Machine integers *)

(** [static_cast<uint8_t>(x)]: reduction modulo 2^8. *)
Definition to_uint8 (x : Z) : Z := x mod 256.

(** [static_cast<int16_t>(x)]: two's complement wrap to 16 bits. *)
Definition to_int16 (x : Z) : Z := (x + 32768) mod 65536 - 32768.

Definition is_uint8 (x : Z) : Prop := 0 <= x < 256.
Definition is_int16 (x : Z) : Prop := -32768 <= x <= 32767.

(* ===================================================================== *)
(** ** Strings *)

(** Modelled from the spec: [asLowerCaseString] lives in the utilities of the
    repository, not in this file; the type attribute is matched
    case-insensitively, so every upper-case ASCII letter is mapped to its
    lower-case letter and every other character is kept. *)
Definition tolower (c : Ascii.ascii) : Ascii.ascii :=
  let n := Ascii.nat_of_ascii c in
  if ((65 <=? n)%nat && (n <=? 90)%nat)%bool
  then Ascii.ascii_of_nat (n + 32) else c.

Fixpoint asLowerCaseString (s : string) : string :=
  match s with
  | EmptyString => EmptyString
  | String c s' => String (tolower c) (asLowerCaseString s')
  end.

(** [s.c_str()] as a C function reads it: the characters of the
    [std::string] up to its first NUL, which a [std::string] may contain. *)
Fixpoint c_str (s : string) : string :=
  match s with
  | EmptyString => EmptyString
  | String c s' =>
      if Ascii.eqb c Ascii.zero then EmptyString else String c (c_str s')
  end.

(** [strcasecmp(a.c_str(), b.c_str()) == 0]: the two C strings are equal
    once every ASCII letter is taken in lower case. *)
Definition strcasecmp_eq (a b : string) : bool :=
  String.eqb (asLowerCaseString (c_str a)) (asLowerCaseString (c_str b)).

(* ===================================================================== *)
(** ** Configuration nodes *)

(** A [pugi::xml_node] as the code reads it: its attributes, in document
    order, each a name and the text of its value. *)
Record xml_attribute := { attr_name : string; attr_text : string }.

Definition xml_node := list xml_attribute.

(** [node.attribute(name)]: the first attribute with that name (names are
    compared exactly), or the null attribute. *)
Fixpoint attribute (name : string) (node : xml_node) : option xml_attribute :=
  match node with
  | [] => None
  | a :: node' =>
      if String.eqb (attr_name a) name then Some a else attribute name node'
  end.

Definition as_string (a : xml_attribute) : string := attr_text a.

(* ===================================================================== *)
(** ** The handler record *)

Inductive ModuleType_t := MODULE_TYPE_RECVBYTE | MODULE_TYPE_NONE.

Global Instance ModuleType_t_eq_dec : EqDecision ModuleType_t.
Proof. solve_decision. Defined.

(** A [LuaScriptInterface*]: [None] is [nullptr]. *)
Abbreviation InterfacePtr := (option positive) (only parsing).

(** The fields of a [Module] object, those inherited from [Event]
    ([scriptId], [scriptInterface], [scripted]) included. *)
Record ModuleObj := {
  type : ModuleType_t;
  loaded : bool;
  recvbyte : Z;            (* uint8_t *)
  delay : Z;               (* int16_t *)
  scriptId : Z;            (* int32_t *)
  scriptInterface : InterfacePtr;
  scripted : bool
}.

Definition set_type (v : ModuleType_t) (m : ModuleObj) : ModuleObj :=
  {| type := v; loaded := loaded m; recvbyte := recvbyte m; delay := delay m;
     scriptId := scriptId m; scriptInterface := scriptInterface m;
     scripted := scripted m |}.

Definition set_loaded (v : bool) (m : ModuleObj) : ModuleObj :=
  {| type := type m; loaded := v; recvbyte := recvbyte m; delay := delay m;
     scriptId := scriptId m; scriptInterface := scriptInterface m;
     scripted := scripted m |}.

Definition set_recvbyte (v : Z) (m : ModuleObj) : ModuleObj :=
  {| type := type m; loaded := loaded m; recvbyte := v; delay := delay m;
     scriptId := scriptId m; scriptInterface := scriptInterface m;
     scripted := scripted m |}.

Definition set_delay (v : Z) (m : ModuleObj) : ModuleObj :=
  {| type := type m; loaded := loaded m; recvbyte := recvbyte m; delay := v;
     scriptId := scriptId m; scriptInterface := scriptInterface m;
     scripted := scripted m |}.

Definition set_scriptId (v : Z) (m : ModuleObj) : ModuleObj :=
  {| type := type m; loaded := loaded m; recvbyte := recvbyte m;
     delay := delay m; scriptId := v; scriptInterface := scriptInterface m;
     scripted := scripted m |}.

Definition set_scriptInterface (v : InterfacePtr) (m : ModuleObj) : ModuleObj :=
  {| type := type m; loaded := loaded m; recvbyte := recvbyte m;
     delay := delay m; scriptId := scriptId m; scriptInterface := v;
     scripted := scripted m |}.

Definition set_scripted (v : bool) (m : ModuleObj) : ModuleObj :=
  {| type := type m; loaded := loaded m; recvbyte := recvbyte m;
     delay := delay m; scriptId := scriptId m;
     scriptInterface := scriptInterface m; scripted := v |}.

(** Modelled from the spec: the constructor
    [Module::Module(interface) : Event(interface), type(MODULE_TYPE_NONE),
    loaded(false)] is in this file, but the class declarations (modules.hpp
    and the [Event] base) are not. The base stores the interface and starts
    unbound ([script_id] 0 means unbound, [scripted] false); [recvbyte] and
    [delay] are taken to start at 0 (the default delay of the spec). *)
Definition Module_new (interface : InterfacePtr) : ModuleObj :=
  {| type := MODULE_TYPE_NONE; loaded := false; recvbyte := 0; delay := 0;
     scriptId := 0; scriptInterface := interface; scripted := false |}.

(** [Module::getScriptEventName]. *)
Definition Module_getScriptEventName (this : ModuleObj) : string :=
  match type this with
  | MODULE_TYPE_RECVBYTE => "onRecvbyte"
  | _ => ""
  end.

(** [Module::copyEvent(module)]: four assignments from [module]. *)
Definition Module_copyEvent (module : ModuleObj) (this : ModuleObj) : ModuleObj :=
  let this := set_scriptId (scriptId module) this in
  let this := set_scriptInterface (scriptInterface module) this in
  let this := set_scripted (scripted module) this in
  set_loaded (loaded module) this.

(** [Module::clearEvent]. *)
Definition Module_clearEvent (this : ModuleObj) : ModuleObj :=
  let this := set_scriptId 0 this in
  let this := set_scriptInterface None this in
  let this := set_scripted false this in
  set_loaded false this.

Section Configure.

(** The integer conversions of the XML library, [xml_attribute::as_int] and
    [xml_attribute::as_uint], on the text of an attribute. They belong to
    pugixml; the embedding is parametric in them. *)
Variable as_int : string → Z.
Variable as_uint : string → Z.

(** [Module::configureEvent(node)] on the fields of [this]. The result is
    the returned boolean, the lines sent to [g_logger().error], and the
    record as the method leaves it. *)
Definition Module_configureEvent (node : xml_node) (this : ModuleObj)
  : bool * list string * ModuleObj :=
  let this := set_delay 0 this in
  match attribute "type" node with
  | None => (false, ["Missing type for module."], this)
  | Some typeAttribute =>
      let tmpStr := asLowerCaseString (as_string typeAttribute) in
      if String.eqb tmpStr "recvbyte" then
        match attribute "byte" node with
        | None => (false, ["Missing byte for module typed recvbyte."], this)
        | Some byteAttribute =>
            let this :=
              set_recvbyte (to_uint8 (as_int (attr_text byteAttribute))) this in
            let this := set_type MODULE_TYPE_RECVBYTE this in
            let this :=
              match attribute "delay" node with
              | Some delayAttribute =>
                  set_delay (to_int16 (as_uint (attr_text delayAttribute))) this
              | None => this
              end in
            let this := set_loaded true this in
            (true, [], this)
        end
      else (false, ["Invalid type for module."], this)
  end.

End Configure.

(* ===================================================================== *)
(** ** Ambient services *)

(** A [NetworkMessage]: the bytes of the inbound buffer. *)
Abbreviation NetworkMessage := (list Byte.byte) (only parsing).

(** Modelled from the spec: the [Player] class is not in this file. The
    registry uses the display name (for one log line) and the per-opcode
    throttle, which keeps for each opcode the next time at which it may run:
    [set_delay(opcode, delay_ms)] stores now + delay_ms, and [can_run(opcode)]
    holds when no time is stored or the stored time has been reached. *)
Record Player := {
  getName : string;
  moduleDelayMap : gmap Z Z
}.

Definition canRunModule (now : Z) (module : Z) (p : Player) : bool :=
  match moduleDelayMap p !! module with
  | None => true
  | Some t => t <=? now
  end.

Definition setModuleDelay (now : Z) (byteortype : Z) (d : Z) (p : Player) : Player :=
  {| getName := getName p;
     moduleDelayMap := <[byteortype := now + d]> (moduleDelayMap p) |}.

(** Modelled from the spec: the script runtime ([LuaScriptInterface]) is an
    external collaborator. Of its state the registry observes the name given
    at construction and which Lua state is current: [initState] creates one,
    [reInitState] closes it and creates the next. *)
Record LuaScriptInterface := {
  interfaceName : string;
  luaState : option nat
}.

Definition initState (i : LuaScriptInterface) : LuaScriptInterface :=
  {| interfaceName := interfaceName i; luaState := Some 0%nat |}.

Definition reInitState (i : LuaScriptInterface) : LuaScriptInterface :=
  {| interfaceName := interfaceName i;
     luaState := Some (from_option S 0%nat (luaState i)) |}.

(** One call made through [callVoidFunction(3)]: the function pushed, the
    runtime it was pushed on, and the three arguments. *)
Record ScriptCall := {
  call_scriptId : Z;
  call_interface : positive;
  call_player : Z;
  call_msg : NetworkMessage;
  call_byte : Z
}.

(* ===================================================================== *)
(** ** Program state *)

(** A [Module_ptr] (and the [Event_ptr] it is cast from) is the address of a
    [Module] object; the objects live in [heap], so that two pointers to one
    object see each other's writes. *)
Abbreviation Module_ptr := positive (only parsing).

Record State := {
  heap : gmap positive ModuleObj;
  recvbyteList : gmap Z positive;     (* Modules::recvbyteList *)
  luaInterface : LuaScriptInterface;  (* Modules::scriptInterface *)
  players : gmap Z Player;            (* g_game(): players by id *)
  logger : list string;               (* g_logger().error, oldest first *)
  scriptEnvFree : nat;                (* script environments not in use *)
  calls : list ScriptCall             (* script calls made, oldest first *)
}.

Definition with_heap (h : gmap positive ModuleObj) (s : State) : State :=
  {| heap := h; recvbyteList := recvbyteList s; luaInterface := luaInterface s;
     players := players s; logger := logger s;
     scriptEnvFree := scriptEnvFree s; calls := calls s |}.

Definition with_recvbyteList (r : gmap Z positive) (s : State) : State :=
  {| heap := heap s; recvbyteList := r; luaInterface := luaInterface s;
     players := players s; logger := logger s;
     scriptEnvFree := scriptEnvFree s; calls := calls s |}.

Definition with_luaInterface (i : LuaScriptInterface) (s : State) : State :=
  {| heap := heap s; recvbyteList := recvbyteList s; luaInterface := i;
     players := players s; logger := logger s;
     scriptEnvFree := scriptEnvFree s; calls := calls s |}.

Definition with_players (p : gmap Z Player) (s : State) : State :=
  {| heap := heap s; recvbyteList := recvbyteList s;
     luaInterface := luaInterface s; players := p; logger := logger s;
     scriptEnvFree := scriptEnvFree s; calls := calls s |}.

Definition with_logger (l : list string) (s : State) : State :=
  {| heap := heap s; recvbyteList := recvbyteList s;
     luaInterface := luaInterface s; players := players s; logger := l;
     scriptEnvFree := scriptEnvFree s; calls := calls s |}.

Definition with_scriptEnvFree (n : nat) (s : State) : State :=
  {| heap := heap s; recvbyteList := recvbyteList s;
     luaInterface := luaInterface s; players := players s; logger := logger s;
     scriptEnvFree := n; calls := calls s |}.

Definition with_calls (c : list ScriptCall) (s : State) : State :=
  {| heap := heap s; recvbyteList := recvbyteList s;
     luaInterface := luaInterface s; players := players s; logger := logger s;
     scriptEnvFree := scriptEnvFree s; calls := c |}.

(** The address of [Modules::scriptInterface], the runtime every record made
    by [getEvent] refers to. *)
Definition modulesInterface : positive := 1%positive.

(** *** The monad: state passing, with [None] for a fault

    A computation either returns a value and the next state, or faults:
    [None] stands for the dereference of a null pointer or of an address
    that holds no object, where the C++ program has no defined behaviour. *)
Definition M (A : Type) : Type := State → option (A * State).

Definition ret {A} (a : A) : M A := λ s, Some (a, s).

Definition bind {A B} (c : M A) (k : A → M B) : M B :=
  λ s, match c s with
       | Some (a, s') => k a s'
       | None => None
       end.

Definition fault {A} : M A := λ _, None.

Notation "x <- c ;; k" := (bind c (λ x, k))
  (at level 100, c at next level, right associativity).
Notation "c ;; k" := (bind c (λ _, k))
  (at level 100, right associativity).

Definition gets {A} (f : State → A) : M A := λ s, Some (f s, s).
Definition modify (f : State → State) : M unit := λ s, Some (tt, f s).

(** [*p] for reading. *)
Definition deref (p : Module_ptr) : M ModuleObj :=
  λ s, match heap s !! p with
       | Some m => Some (m, s)
       | None => None
       end.

(** A method of the object at [p] that rewrites its fields. *)
Definition update (p : Module_ptr) (f : ModuleObj → ModuleObj) : M unit :=
  m <- deref p ;;
  modify (λ s, with_heap (<[p := f m]> (heap s)) s).

(** [g_logger().error(line)]. *)
Definition log_error (line : string) : M unit :=
  modify (λ s, with_logger (logger s ++ [line]) s).

(** [g_game().getPlayerByID(id)]: the player, or null. *)
Definition getPlayerByID (id : Z) : M (option Player) :=
  gets (λ s, players s !! id).

(** Modelled from the spec: [LuaScriptInterface::reserveScriptEnv] acquires
    one of a bounded pool of per-call environments and fails when the pool
    is exhausted; the environment is released when the call completes. *)
Definition reserveScriptEnv : M bool :=
  λ s, match scriptEnvFree s with
       | O => Some (false, s)
       | S n => Some (true, with_scriptEnvFree n s)
       end.

Definition resetScriptEnv : M unit :=
  modify (λ s, with_scriptEnvFree (S (scriptEnvFree s)) s).

(** [make_unique<Module>(interface)]: a new object at an unused address. *)
Definition new_Module (interface : InterfacePtr) : M Module_ptr :=
  λ s, let p := fresh (dom (heap s)) in
       Some (p, with_heap (<[p := Module_new interface]> (heap s)) s).

(** [player->...] on the player found by [getPlayerByID]. *)
Definition derefPlayer (id : Z) : M Player :=
  λ s, match players s !! id with
       | Some p => Some (p, s)
       | None => None
       end.

Definition updatePlayer (id : Z) (f : Player → Player) : M unit :=
  p <- derefPlayer id ;;
  modify (λ s, with_players (<[id := f p]> (players s)) s).

(* ===================================================================== *)
(** ** The registry: methods of [Modules] *)

(** [Modules::Modules()]: an empty registry whose runtime is initialised,
    in a world with the given players and free script environments. *)
Definition Modules_new (ps : gmap Z Player) (envs : nat) : State :=
  {| heap := ∅; recvbyteList := ∅;
     luaInterface :=
       initState {| interfaceName := "Modules Interface"; luaState := None |};
     players := ps; logger := []; scriptEnvFree := envs; calls := [] |}.

(** Modelled from the spec: the declaration of [recvbyteList] is in
    modules.hpp, which is not in this file; it is a map from the uint8_t
    opcode to the record, so its entries are those at the keys 0..255, and
    [for (const auto &it : recvbyteList)] is taken to visit them by
    ascending key. *)
Definition recvbyte_entries (r : gmap Z positive) : list (Z * positive) :=
  omap (λ k, (λ p, (k, p)) <$> r !! k) (seqZ 0 256).

(** The loop of [Modules::clear]. *)
Fixpoint clear_loop (es : list (Z * positive)) : M unit :=
  match es with
  | [] => ret tt
  | it :: es' => update it.2 Module_clearEvent ;; clear_loop es'
  end.

(** [Modules::clear]. *)
Definition Modules_clear : M unit :=
  es <- gets (λ s, recvbyte_entries (recvbyteList s)) ;;
  clear_loop es ;;
  modify (λ s, with_luaInterface (reInitState (luaInterface s)) s).

(** [Modules::getScriptBaseName]. *)
Definition Modules_getScriptBaseName : string := "modules".

(** [Modules::getEvent(nodeName)]: [None] is the null [Event_ptr]. *)
Definition Modules_getEvent (nodeName : string) : M (option Module_ptr) :=
  if negb (strcasecmp_eq nodeName "module") then ret None
  else p <- new_Module (Some modulesInterface) ;; ret (Some p).

(** [Modules::getEventByRecvbyte(recvbyte, force)]. The object is read only
    when [force] is set, as [||] evaluates its right operand only then. *)
Definition Modules_getEventByRecvbyte (rb : Z) (force : bool)
  : M (option Module_ptr) :=
  r <- gets recvbyteList ;;
  match r !! rb with
  | Some p =>
      if negb force then ret (Some p)
      else
        m <- deref p ;;
        if loaded m then ret (Some p) else ret None
  | None => ret None
  end.

(** The five ways out of [Modules::registerEvent], by the line of the
    statement that ends the call. *)
Inductive RegisterPath :=
| RegNoType     (* line 50: return false *)
| RegCopied     (* line 57: return true  *)
| RegConflict   (* line 59: return false *)
| RegOverwrote  (* lines 64 and 68: it->second = module; return true *)
| RegEmplaced.  (* lines 66 and 68: emplace; return true *)

Definition register_result (p : RegisterPath) : bool :=
  match p with
  | RegNoType | RegConflict => false
  | RegCopied | RegOverwrote | RegEmplaced => true
  end.

(** [Modules::registerEvent(event, node)], returning the way out taken. *)
Definition Modules_registerEvent_path (event : Module_ptr) (_ : xml_node)
  : M RegisterPath :=
  module <- deref event ;;
  if decide (type module = MODULE_TYPE_NONE) then
    log_error "Trying to register event without type!" ;;
    ret RegNoType
  else
    oldModule <- Modules_getEventByRecvbyte (recvbyte module) false ;;
    match oldModule with
    | Some old =>
        o <- deref old ;;
        if negb (loaded o) && bool_decide (type o = type module) then
          src <- deref event ;;
          update old (Module_copyEvent src) ;;
          ret RegCopied
        else ret RegConflict
    | None =>
        r <- gets recvbyteList ;;
        match r !! recvbyte module with
        | Some _ =>
            modify (with_recvbyteList (<[recvbyte module := event]> r)) ;;
            ret RegOverwrote
        | None =>
            modify (with_recvbyteList (<[recvbyte module := event]> r)) ;;
            ret RegEmplaced
        end
    end.

(** [Modules::registerEvent(event, node)]: the boolean the caller sees. *)
Definition Modules_registerEvent (event : Module_ptr) (node : xml_node)
  : M bool :=
  p <- Modules_registerEvent_path event node ;;
  ret (register_result p).

(** [Module::executeOnRecvbyte(player, msg)], the bridge into the script
    runtime. The function pushed, the runtime and the three arguments of
    [callVoidFunction(3)] are recorded in [calls]; the body of the script is
    not run, so what a script does while it is called (log, or send a
    further message through the registry) is not part of the state that
    follows. The theorems say which of their conclusions are about the
    call as it is entered. *)
Definition Module_executeOnRecvbyte (this : Module_ptr) (playerId : Z)
    (msg : NetworkMessage) : M unit :=
  reserved <- reserveScriptEnv ;;
  if negb reserved then
    player <- derefPlayer playerId ;;
    log_error ("Call stack overflow. Too many lua script calls being nested "
               +:+ getName player)
  else
    (* env->setScriptId(scriptId, scriptInterface) tags the environment *)
    m <- deref this ;;
    match scriptInterface m with
    | None => fault   (* scriptInterface->getLuaState() through nullptr *)
    | Some i =>
        modify (λ s, with_calls
          (calls s ++ [{| call_scriptId := scriptId m; call_interface := i;
                          call_player := playerId; call_msg := msg;
                          call_byte := recvbyte m |}]) s) ;;
        resetScriptEnv
    end.

(** The loop of [Modules::executeOnRecvbyte]; [now] is the clock the
    throttle reads. *)
Fixpoint executeOnRecvbyte_loop (now : Z) (playerId : Z) (msg : NetworkMessage)
    (byte : Z) (es : list (Z * positive)) : M unit :=
  match es with
  | [] => ret tt
  | it :: es' =>
      module <- deref it.2 ;;
      player <- derefPlayer playerId ;;
      if bool_decide (type module = MODULE_TYPE_RECVBYTE)
         && (recvbyte module =? byte)
         && canRunModule now (recvbyte module) player
      then
        updatePlayer playerId
          (setModuleDelay now (recvbyte module) (delay module)) ;;
        Module_executeOnRecvbyte it.2 playerId msg
      else executeOnRecvbyte_loop now playerId msg byte es'
  end.

(** [Modules::executeOnRecvbyte(playerId, msg, byte)]. *)
Definition Modules_executeOnRecvbyte (now : Z) (playerId : Z)
    (msg : NetworkMessage) (byte : Z) : M unit :=
  player <- getPlayerByID playerId ;;
  match player with
  | None => ret tt
  | Some _ =>
      es <- gets (λ s, recvbyte_entries (recvbyteList s)) ;;
      executeOnRecvbyte_loop now playerId msg byte es
  end.

(** The configuration of the object behind a pointer: the method of
    [Module] applied in place, its error lines sent to the logger. *)
Definition configureEvent_at (as_int as_uint : string → Z)
    (this : Module_ptr) (node : xml_node) : M bool :=
  m <- deref this ;;
  let '(ok, lines, m') := Module_configureEvent as_int as_uint node m in
  modify (λ s, with_heap (<[this := m']> (heap s)) s) ;;
  modify (λ s, with_logger (logger s ++ lines) s) ;;
  ret ok.

(* ===================================================================== *)
(** ** Sequences of operations *)

Section Operations.

Variable as_int : string → Z.
Variable as_uint : string → Z.

(** What the owner of the registry can do to it, in any order. *)
Inductive Op :=
| OpGetEvent (nodeName : string)
| OpConfigure (p : positive) (node : xml_node)
| OpRegister (p : positive) (node : xml_node)
| OpClear
| OpDispatch (now : Z) (playerId : Z) (msg : NetworkMessage) (byte : Z).

Definition run_op (o : Op) : M unit :=
  match o with
  | OpGetEvent nodeName => Modules_getEvent nodeName ;; ret tt
  | OpConfigure p node => configureEvent_at as_int as_uint p node ;; ret tt
  | OpRegister p node => Modules_registerEvent p node ;; ret tt
  | OpClear => Modules_clear
  | OpDispatch now playerId msg byte =>
      Modules_executeOnRecvbyte now playerId msg byte
  end.

Fixpoint run_ops (os : list Op) : M unit :=
  match os with
  | [] => ret tt
  | o :: os' => run_op o ;; run_ops os'
  end.

End Operations.

(* ===================================================================== *)
(** ** Invariants *)

(** Every pointer stored in the registry holds an object (what
    [std::shared_ptr] guarantees) and every key is a uint8_t. *)
Definition registry_closed (s : State) : Prop :=
  map_Forall (λ k p, is_uint8 k ∧ is_Some (heap s !! p)) (recvbyteList s).

(** Every record is stored under its own opcode. *)
Definition keyed_at (s : State) (k : Z) (p : positive) : Prop :=
  match heap s !! p with
  | Some m => recvbyte m = k
  | None => True
  end.

Definition registry_keyed (s : State) : Prop :=
  map_Forall (keyed_at s) (recvbyteList s).

Global Instance is_uint8_dec x : Decision (is_uint8 x).
Proof. unfold is_uint8. apply _. Defined.

Global Instance is_int16_dec x : Decision (is_int16 x).
Proof. unfold is_int16. apply _. Defined.

Global Instance keyed_at_dec s k p : Decision (keyed_at s k p).
Proof. unfold keyed_at. destruct (heap s !! p); apply _. Defined.

Global Instance registry_closed_dec s : Decision (registry_closed s).
Proof. unfold registry_closed. apply _. Defined.

Global Instance registry_keyed_dec s : Decision (registry_keyed s).
Proof. unfold registry_keyed. apply _. Defined.

(** What holds of every object, whatever was done to it. *)
Definition object_ok (m : ModuleObj) : Prop :=
  is_uint8 (recvbyte m) ∧ is_int16 (delay m) ∧
  (loaded m = true → type m = MODULE_TYPE_RECVBYTE).

Definition state_ok (s : State) : Prop :=
  registry_closed s ∧
  (∀ p m, heap s !! p = Some m → object_ok m) ∧
  (∀ k p m, recvbyteList s !! k = Some p → heap s !! p = Some m →
     type m = MODULE_TYPE_RECVBYTE).

(** The three ways in which [configureEvent] rejects a node. *)
Definition config_fails (node : xml_node) : Prop :=
  attribute "type" node = None
  ∨ (∃ a, attribute "type" node = Some a
          ∧ asLowerCaseString (as_string a) ≠ "recvbyte")
  ∨ (∃ a, attribute "type" node = Some a
          ∧ asLowerCaseString (as_string a) = "recvbyte"
          ∧ attribute "byte" node = None).

(** When the throttle of a player lets opcode [byte] run at time [now]. *)
Definition throttle_permits (now : Z) (byte : Z) (p : Player) : Prop :=
  canRunModule now byte p = true.

(* ===================================================================== *)
(** ** The methods as case analyses

    Closed forms of [registerEvent] and [executeOnRecvbyte], proved below to
    agree with the methods; the statements about them are read off these. *)

(** The whole of [registerEvent] as one case analysis on the state. *)
Definition register_outcome (event : positive) (m : ModuleObj) (s : State)
  : option (RegisterPath * State) :=
  if decide (type m = MODULE_TYPE_NONE) then
    Some (RegNoType,
          with_logger (logger s ++ ["Trying to register event without type!"]) s)
  else
    match recvbyteList s !! recvbyte m with
    | Some old =>
        match heap s !! old with
        | Some o =>
            if negb (loaded o) && bool_decide (type o = type m)
            then Some (RegCopied,
                       with_heap (<[old := Module_copyEvent m o]> (heap s)) s)
            else Some (RegConflict, s)
        | None => None
        end
    | None =>
        Some (RegEmplaced,
              with_recvbyteList (<[recvbyte m := event]> (recvbyteList s)) s)
    end.

(** The condition of the [if] in the loop, on one record. *)
Definition selects (now : Z) (byte : Z) (player : Player) (m : ModuleObj) : bool :=
  bool_decide (type m = MODULE_TYPE_RECVBYTE)
  && (recvbyte m =? byte)
  && canRunModule now (recvbyte m) player.

(** The body of that [if]: arm the throttle, then enter the bridge. *)
Definition fire (now : Z) (playerId : Z) (msg : NetworkMessage)
    (p : positive) (m : ModuleObj) : M unit :=
  updatePlayer playerId (setModuleDelay now (recvbyte m) (delay m)) ;;
  Module_executeOnRecvbyte p playerId msg.

(** With every record stored under its own opcode, the scan is a lookup:
    what [Modules::executeOnRecvbyte] does, as one case analysis. *)
Definition dispatch_direct (now : Z) (playerId : Z) (msg : NetworkMessage)
    (byte : Z) : M unit :=
  λ s, match players s !! playerId with
       | None => Some (tt, s)
       | Some player =>
           match recvbyteList s !! byte with
           | None => Some (tt, s)
           | Some p =>
               match heap s !! p with
               | None => None
               | Some m =>
                   if bool_decide (type m = MODULE_TYPE_RECVBYTE)
                      && canRunModule now byte player
                   then fire now playerId msg p m s
                   else Some (tt, s)
               end
           end
       end.

(** The registry proper: objects, map and runtime. *)
Definition same_registry (s s' : State) : Prop :=
  heap s' = heap s ∧ recvbyteList s' = recvbyteList s
  ∧ luaInterface s' = luaInterface s.

(** The line logged when no script environment is free. *)
Definition overflow_line (player : Player) : string :=
  "Call stack overflow. Too many lua script calls being nested "
  +:+ getName player.

(** [registry_keyed] is kept by every operation but one: configuring again
    an object that is already stored can change its opcode under the map.
    The callers of the registry configure a record before they register
    it; [op_respects_keys] says that an operation does. *)
Definition op_respects_keys (s : State) (o : Op) : Prop :=
  match o with
  | OpConfigure p _ => ∀ k, recvbyteList s !! k ≠ Some p
  | _ => True
  end.

(* ===================================================================== *)
(** ** Concrete inputs for the examples *)

Definition digit_value (c : Ascii.ascii) : option Z :=
  let n := Ascii.nat_of_ascii c in
  if ((48 <=? n)%nat && (n <=? 57)%nat)%bool then Some (Z.of_nat n - 48)
  else None.

Fixpoint read_digits (acc : Z) (s : string) : Z :=
  match s with
  | EmptyString => acc
  | String c s' =>
      match digit_value c with
      | Some d => read_digits (10 * acc + d) s'
      | None => acc
      end
  end.

(** A reader of plain decimal literals, standing for [as_int] and [as_uint]
    in the examples: on a run of decimal digits within range it gives the
    number written, as the XML library does. *)
Definition read_decimal (s : string) : Z := read_digits 0 s.

Definition attr (n v : string) : xml_attribute :=
  {| attr_name := n; attr_text := v |}.

Definition alice : Player := {| getName := "Alice"; moduleDelayMap := ∅ |}.

(** A fresh registry in a world with one player, id 42. *)
Definition world (envs : nat) : State := Modules_new {[ 42 := alice ]} envs.

Definition node7 : xml_node :=
  [attr "type" "RecvByte"; attr "byte" "7"; attr "delay" "1000"].

Definition node9 : xml_node :=
  [attr "type" "recvbyte"; attr "byte" "9"; attr "delay" "40000"].

Definition node_untyped : xml_node := [attr "byte" "1"].

(** The run used in the examples: one record allocated, configured from
    [node] and registered, as a loader does for one node of the document. *)
Definition load (node : xml_node) (p : positive) : list Op :=
  [OpGetEvent "module"; OpConfigure p node; OpRegister p node].

(** A record for opcode 7 whose binding was cleared, a record for the same
    opcode that carries a script, and a record as [getEvent] makes it. *)
Definition placeholder7 : ModuleObj :=
  {| type := MODULE_TYPE_RECVBYTE; loaded := false; recvbyte := 7;
     delay := 1000; scriptId := 0; scriptInterface := None;
     scripted := false |}.

Definition bound7 : ModuleObj :=
  {| type := MODULE_TYPE_RECVBYTE; loaded := true; recvbyte := 7;
     delay := 250; scriptId := 5; scriptInterface := Some modulesInterface;
     scripted := true |}.

Definition unconfigured : ModuleObj := Module_new (Some modulesInterface).

(** Object 1 is stored under opcode 7; objects 2 and 3 are not stored. *)
Definition registry_with (m1 : ModuleObj) (envs : nat) : State :=
  with_recvbyteList {[ 7 := 1%positive ]}
    (with_heap {[ 1%positive := m1; 2%positive := bound7;
                  3%positive := unconfigured ]} (world envs)).

(** The call that the script bound to opcode 7 receives from player 42. *)
Definition call7 : ScriptCall :=
  {| call_scriptId := 5; call_interface := modulesInterface;
     call_player := 42; call_msg := []; call_byte := 7 |}.

(* ===================================================================== *)
(** ** Runs that configure before they register *)

(** No opcode of the registry holds the object at [p]. *)
Definition unstored (p : positive) (s : State) : Prop :=
  map_Forall (λ _ q, q ≠ p) (recvbyteList s).

Global Instance unstored_dec p s : Decision (unstored p s).
Proof. unfold unstored. apply _. Defined.

(** Whether a run, started in [s], configures only objects that are not
    stored at the time, as a loader does that configures each record before
    it hands it to [registerEvent]. *)
Fixpoint configures_before_registering (as_int as_uint : string → Z)
    (os : list Op) (s : State) : bool :=
  match os with
  | [] => true
  | o :: os' =>
      match o with
      | OpConfigure p _ => bool_decide (unstored p s)
      | _ => true
      end
      && match run_op as_int as_uint o s with
         | Some (_, s') => configures_before_registering as_int as_uint os' s'
         | None => true
         end
  end.

(** The error line of [configureEvent] on a node it rejects. *)
Definition configure_error (node : xml_node) : string :=
  match attribute "type" node with
  | None => "Missing type for module."
  | Some t =>
      if String.eqb (asLowerCaseString (as_string t)) "recvbyte"
      then "Missing byte for module typed recvbyte."
      else "Invalid type for module."
  end.

(** No stored record has [byte] as its own opcode. *)
Definition no_record_has_opcode (byte : Z) (s : State) : Prop :=
  map_Forall (λ _ p, match heap s !! p with
                     | Some m => recvbyte m ≠ byte
                     | None => True
                     end) (recvbyteList s).

Global Instance no_record_has_opcode_dec byte s :
  Decision (no_record_has_opcode byte s).
Proof.
  unfold no_record_has_opcode. apply map_Forall_dec.
  intros k p. destruct (heap s !! p); apply _.
Defined.

(** Every stored record whose own opcode is [byte] refers to a runtime. *)
Definition records_for_opcode_have_runtime (byte : Z) (s : State) : Prop :=
  map_Forall (λ _ p, match heap s !! p with
                     | Some m => recvbyte m = byte → is_Some (scriptInterface m)
                     | None => True
                     end) (recvbyteList s).

Global Instance records_for_opcode_have_runtime_dec byte s :
  Decision (records_for_opcode_have_runtime byte s).
Proof.
  unfold records_for_opcode_have_runtime. apply map_Forall_dec.
  intros k p. destruct (heap s !! p); apply _.
Defined.

(** A node name that reads "module" as a C string and is longer as a
    [std::string]. *)
Definition module_nul_x : string :=
  "Module" +:+ String Ascii.zero "x".

(** The record stored under opcode 7 reconfigured to opcode 9: a registry
    in which a record is not under its own opcode. *)
Definition bound9 : ModuleObj := set_recvbyte 9 bound7.

(** A node that two records of one opcode can be configured from, and a
    registry in which nothing is stored yet. *)
Definition node263 : xml_node :=
  [attr "byte" "263"; attr "type" "RECVBYTE"; attr "byte" "9"].

Definition empty_registry (envs : nat) : State :=
  with_recvbyteList ∅ (registry_with bound7 envs).

(* ===================================================================== *)
(** ** Basic facts *)

Lemma registry_keyed_lookup s k p m :
  registry_keyed s → recvbyteList s !! k = Some p → heap s !! p = Some m →
  recvbyte m = k.
Proof.
  intros Hkey Hk Hm. specialize (Hkey k p Hk).
  unfold keyed_at in Hkey. by rewrite Hm in Hkey.
Qed.

Lemma to_uint8_range x : is_uint8 (to_uint8 x).
Proof. unfold is_uint8, to_uint8. apply Z.mod_pos_bound. lia. Qed.

Lemma to_int16_range x : is_int16 (to_int16 x).
Proof.
  unfold is_int16, to_int16.
  pose proof (Z.mod_pos_bound (x + 32768) 65536 ltac:(lia)). lia.
Qed.

Lemma string_eqb_true (a b : string) : String.eqb a b = true ↔ a = b.
Proof. apply String.eqb_eq. Qed.

Lemma string_eqb_false (a b : string) : String.eqb a b = false ↔ a ≠ b.
Proof. apply String.eqb_neq. Qed.

(** *** [Module::configureEvent], case by case *)

Section ConfigureFacts.

Variable as_int : string → Z.
Variable as_uint : string → Z.

Lemma configureEvent_fails node m :
  config_fails node →
  ∃ line, Module_configureEvent as_int as_uint node m
          = (false, [line], set_delay 0 m).
Proof.
  unfold Module_configureEvent.
  intros [Ht | [(a & Ht & Hne) | (a & Ht & Hl & Hb)]]; rewrite Ht.
  - eauto.
  - apply string_eqb_false in Hne. rewrite Hne. eauto.
  - apply string_eqb_true in Hl. rewrite Hl, Hb. eauto.
Qed.

Lemma configureEvent_succeeds node m lines m' :
  Module_configureEvent as_int as_uint node m = (true, lines, m') →
  ∃ t b,
    attribute "type" node = Some t
    ∧ asLowerCaseString (as_string t) = "recvbyte"
    ∧ attribute "byte" node = Some b
    ∧ lines = []
    ∧ m' = {| type := MODULE_TYPE_RECVBYTE; loaded := true;
              recvbyte := to_uint8 (as_int (attr_text b));
              delay := match attribute "delay" node with
                       | Some d => to_int16 (as_uint (attr_text d))
                       | None => 0
                       end;
              scriptId := scriptId m; scriptInterface := scriptInterface m;
              scripted := scripted m |}.
Proof.
  unfold Module_configureEvent.
  destruct (attribute "type" node) as [t|] eqn:Ht; [|done].
  destruct (String.eqb _ _) eqn:Hl; [|done].
  destruct (attribute "byte" node) as [b|] eqn:Hb; [|done].
  intros [= <- <-]. exists t, b.
  apply string_eqb_true in Hl.
  repeat split; try done.
  by destruct (attribute "delay" node).
Qed.

Lemma configureEvent_result node m :
  config_fails node
  ∨ ∃ lines m', Module_configureEvent as_int as_uint node m = (true, lines, m').
Proof.
  unfold config_fails, Module_configureEvent.
  destruct (attribute "type" node) as [t|] eqn:Ht; [|by left; left].
  destruct (String.eqb _ _) eqn:Hl.
  - apply string_eqb_true in Hl.
    destruct (attribute "byte" node) as [b|] eqn:Hb; [right; eauto|].
    left; right; right. eauto.
  - apply string_eqb_false in Hl. left; right; left. eauto.
Qed.

Lemma configureEvent_object_ok node m :
  object_ok m → object_ok (Module_configureEvent as_int as_uint node m).2.
Proof.
  intros (Hb & Hd & Hl).
  destruct (configureEvent_result node m) as [Hf | (lines & m' & Hs)].
  - destruct (configureEvent_fails node m Hf) as [line ->]. simpl.
    split; [exact Hb|]. split; [unfold is_int16; simpl; lia | exact Hl].
  - rewrite Hs. simpl.
    apply configureEvent_succeeds in Hs as (t & b & _ & _ & _ & _ & ->).
    split; [apply to_uint8_range|]. split; [|done]. simpl.
    destruct (attribute "delay" node); [apply to_int16_range|].
    unfold is_int16; lia.
Qed.

Lemma configureEvent_type node m :
  type m = MODULE_TYPE_RECVBYTE →
  type (Module_configureEvent as_int as_uint node m).2 = MODULE_TYPE_RECVBYTE.
Proof.
  intros Hty.
  destruct (configureEvent_result node m) as [Hf | (lines & m' & Hs)].
  - by destruct (configureEvent_fails node m Hf) as [line ->].
  - rewrite Hs. simpl.
    by apply configureEvent_succeeds in Hs as (t & b & _ & _ & _ & _ & ->).
Qed.

End ConfigureFacts.

(** *** [Modules::getEventByRecvbyte] and [Modules::registerEvent] *)

Lemma getEventByRecvbyte_unforced rb s :
  Modules_getEventByRecvbyte rb false s = Some (recvbyteList s !! rb, s).
Proof.
  unfold Modules_getEventByRecvbyte, bind, gets, ret. simpl.
  by destruct (recvbyteList s !! rb).
Qed.

Lemma getEventByRecvbyte_forced rb s p m :
  recvbyteList s !! rb = Some p → heap s !! p = Some m →
  Modules_getEventByRecvbyte rb true s
  = Some (if loaded m then Some p else None, s).
Proof.
  intros Hr Hp.
  unfold Modules_getEventByRecvbyte, bind, gets, ret, deref. simpl.
  rewrite Hr. simpl. rewrite Hp. by destruct (loaded m).
Qed.

Lemma registerEvent_path_unfold event node s m :
  heap s !! event = Some m →
  Modules_registerEvent_path event node s = register_outcome event m s.
Proof.
  intros Hev.
  unfold Modules_registerEvent_path, register_outcome.
  unfold bind at 1. unfold deref at 1. rewrite Hev.
  destruct (decide (type m = MODULE_TYPE_NONE)) as [Hty|Hty]; [done|].
  unfold bind at 1. rewrite getEventByRecvbyte_unforced.
  destruct (recvbyteList s !! recvbyte m) as [old|] eqn:Hold.
  - unfold bind at 1. unfold deref at 1.
    destruct (heap s !! old) as [o|] eqn:Ho; [|done].
    destruct (negb (loaded o) && bool_decide (type o = type m)); [|done].
    unfold bind, deref, ret. rewrite Hev.
    unfold update, bind, deref, modify. by rewrite Ho.
  - unfold bind, gets, modify, ret. simpl. by rewrite Hold.
Qed.

Lemma registerEvent_unfold event node s m :
  heap s !! event = Some m →
  Modules_registerEvent event node s
  = (λ r, (register_result r.1, r.2)) <$> register_outcome event m s.
Proof.
  intros Hev. unfold Modules_registerEvent, bind.
  rewrite (registerEvent_path_unfold _ _ _ _ Hev).
  by destruct (register_outcome event m s) as [[r s']|].
Qed.

Lemma registerEvent_unallocated event node s :
  heap s !! event = None → Modules_registerEvent_path event node s = None.
Proof.
  intros Hev. unfold Modules_registerEvent_path, bind, deref. by rewrite Hev.
Qed.

(** *** Iteration over the registry *)

Lemma elem_of_recvbyte_entries r k p :
  (k, p) ∈ recvbyte_entries r ↔ r !! k = Some p ∧ is_uint8 k.
Proof.
  unfold recvbyte_entries, is_uint8. rewrite list_elem_of_omap. split.
  - intros (k' & Hk' & Hl). apply elem_of_seqZ in Hk'.
    destruct (r !! k') as [p'|] eqn:Hr; simplify_eq/=. split; [done|lia].
  - intros [Hr Hk]. exists k. split; [apply elem_of_seqZ; lia|].
    by rewrite Hr.
Qed.

(** *** [Modules::clear] *)

Lemma clear_loop_spec es : ∀ s,
  (∀ e, e ∈ es → is_Some (heap s !! e.2)) →
  ∃ h', clear_loop es s = Some (tt, with_heap h' s)
        ∧ ∀ q, h' !! q = if decide (q ∈ es.*2)
                         then Module_clearEvent <$> heap s !! q
                         else heap s !! q.
Proof.
  induction es as [|[k p] es IH]; intros s Hall.
  - exists (heap s). split; [by destruct s|]. intros q.
    case_decide as Hq; [|done]. by apply elem_of_nil in Hq.
  - destruct (Hall (k, p)) as [m Hm]; [left|]. simpl in Hm.
    set (s1 := with_heap (<[p := Module_clearEvent m]> (heap s)) s).
    destruct (IH s1) as (h' & Hrun & Hh').
    { intros e He. simpl. destruct (decide (e.2 = p)) as [->|Hne].
      - rewrite lookup_insert_eq. eauto.
      - rewrite lookup_insert_ne by done. apply Hall. by right. }
    exists h'. split.
    + simpl. unfold bind at 1. unfold update, bind, deref, modify. simpl.
      rewrite Hm. fold s1. by rewrite Hrun.
    + intros q. rewrite Hh'. simpl.
      destruct (decide (q = p)) as [->|Hne].
      * rewrite lookup_insert_eq, Hm. simpl.
        destruct (decide (p ∈ p :: _)) as [_|Hn]; [|exfalso; apply Hn; left].
        by case_decide.
      * rewrite lookup_insert_ne by done.
        case_decide as H1; case_decide as H2; try done.
        -- exfalso. apply H2. by right.
        -- exfalso. apply elem_of_cons in H2 as [?|?]; done.
Qed.

(** The state after [clear]: the map and everything outside the registry
    as before, a next Lua state, and each stored object cleared. *)
Lemma Modules_clear_spec s :
  registry_closed s →
  ∃ h', Modules_clear s
        = Some (tt, with_luaInterface (reInitState (luaInterface s))
                      (with_heap h' s))
        ∧ (∀ k p, recvbyteList s !! k = Some p →
             h' !! p = Module_clearEvent <$> heap s !! p)
        ∧ (∀ q, (∀ k, recvbyteList s !! k ≠ Some q) → h' !! q = heap s !! q)
        ∧ ∀ q, h' !! q = heap s !! q
               ∨ h' !! q = Module_clearEvent <$> heap s !! q.
Proof.
  intros Hcl.
  destruct (clear_loop_spec (recvbyte_entries (recvbyteList s)) s)
    as (h' & Hrun & Hh').
  { intros [k p] He. apply elem_of_recvbyte_entries in He as [Hr _].
    by apply (Hcl k p). }
  exists h'. split; [|split; [|split]].
  - unfold Modules_clear, bind, gets, modify. by rewrite Hrun.
  - intros k p Hr. rewrite Hh'. rewrite decide_True; [done|].
    apply list_elem_of_fmap. exists (k, p). split; [done|].
    apply elem_of_recvbyte_entries. split; [done|]. by apply (Hcl k p).
  - intros q Hq. rewrite Hh'. rewrite decide_False; [done|].
    intros ([k p] & -> & He)%list_elem_of_fmap.
    apply elem_of_recvbyte_entries in He as [Hr _]. by apply (Hq k).
  - intros q. rewrite Hh'. case_decide; [by right|by left].
Qed.

(** *** [Modules::executeOnRecvbyte] *)

Lemma loop_cons now playerId msg byte k p es s m player :
  heap s !! p = Some m → players s !! playerId = Some player →
  executeOnRecvbyte_loop now playerId msg byte ((k, p) :: es) s
  = if selects now byte player m then fire now playerId msg p m s
    else executeOnRecvbyte_loop now playerId msg byte es s.
Proof.
  intros Hm Hpl. simpl.
  unfold bind at 1. unfold deref at 1. rewrite Hm.
  unfold bind at 1. unfold derefPlayer at 1. rewrite Hpl.
  unfold selects, fire. by destruct (_ && _ && _).
Qed.

(** The loop visits entries that do not select until one does. *)
Lemma loop_none now playerId msg byte player es : ∀ s,
  players s !! playerId = Some player →
  (∀ k p, (k, p) ∈ es →
     ∃ m, heap s !! p = Some m ∧ selects now byte player m = false) →
  executeOnRecvbyte_loop now playerId msg byte es s = Some (tt, s).
Proof.
  induction es as [|[k p] es IH]; intros s Hpl Hall; [done|].
  destruct (Hall k p) as (m & Hm & Hsel); [left|].
  rewrite (loop_cons _ _ _ _ _ _ _ _ m player) by done. rewrite Hsel.
  apply IH; [done|]. intros k' p' He. apply (Hall k' p'). by right.
Qed.

Lemma loop_first now playerId msg byte player es1 k p m es2 s :
  players s !! playerId = Some player →
  (∀ k' p', (k', p') ∈ es1 →
     ∃ m', heap s !! p' = Some m' ∧ selects now byte player m' = false) →
  heap s !! p = Some m → selects now byte player m = true →
  executeOnRecvbyte_loop now playerId msg byte (es1 ++ (k, p) :: es2) s
  = fire now playerId msg p m s.
Proof.
  intros Hpl Hall Hm Hsel.
  induction es1 as [|[k1 p1] es1 IH]; simpl app.
  - rewrite (loop_cons _ _ _ _ _ _ _ _ m player) by done. by rewrite Hsel.
  - destruct (Hall k1 p1) as (m1 & Hm1 & Hsel1); [left|].
    rewrite (loop_cons _ _ _ _ _ _ _ _ m1 player) by done. rewrite Hsel1.
    apply IH. intros k' p' He. apply (Hall k' p'). by right.
Qed.

Lemma selects_true now byte player m :
  selects now byte player m = true →
  type m = MODULE_TYPE_RECVBYTE ∧ recvbyte m = byte
  ∧ canRunModule now byte player = true.
Proof.
  unfold selects.
  intros [[Hty%bool_decide_eq_true Hb%Z.eqb_eq]%andb_true_iff Hc]%andb_true_iff.
  by rewrite Hb in Hc.
Qed.

Lemma selects_intro now byte player m :
  type m = MODULE_TYPE_RECVBYTE → recvbyte m = byte →
  canRunModule now byte player = true →
  selects now byte player m = true.
Proof.
  intros Hty Hb Hc. unfold selects.
  rewrite Hb, Hc, Z.eqb_refl. by rewrite bool_decide_eq_true_2.
Qed.

(** When some entry selects, the loop fires on the first that does. *)
Lemma loop_selects now playerId msg byte player es : ∀ s,
  players s !! playerId = Some player →
  (∀ k p, (k, p) ∈ es → is_Some (heap s !! p)) →
  (∃ k p m, (k, p) ∈ es ∧ heap s !! p = Some m
            ∧ selects now byte player m = true) →
  ∃ k p m,
    (k, p) ∈ es ∧ heap s !! p = Some m
    ∧ selects now byte player m = true
    ∧ executeOnRecvbyte_loop now playerId msg byte es s
      = fire now playerId msg p m s.
Proof.
  induction es as [|[k0 p0] es IH]; intros s Hpl Hall (k & p & m & Hin & Hm & Hsel).
  - by apply elem_of_nil in Hin.
  - destruct (Hall k0 p0) as [m0 Hm0]; [left|].
    destruct (selects now byte player m0) eqn:Hsel0.
    + exists k0, p0, m0. split; [left|]. do 2 (split; [done|]).
      rewrite (loop_cons _ _ _ _ _ _ _ _ m0 player) by done.
      by rewrite Hsel0.
    + destruct (IH s Hpl) as (k' & p' & m' & Hin' & Hm' & Hsel' & Hrun).
      { intros k1 p1 H1. apply (Hall k1 p1). by right. }
      { apply elem_of_cons in Hin as [[= -> ->] | Hin].
        - rewrite Hm0 in Hm. injection Hm as <-. congruence.
        - by exists k, p, m. }
      exists k', p', m'. split; [by right|]. do 2 (split; [done|]).
      rewrite (loop_cons _ _ _ _ _ _ _ _ m0 player) by done.
      by rewrite Hsel0.
Qed.

(** On a registry whose stored pointers hold objects, a dispatch fires on a
    stored record that selects as soon as one does. *)
Lemma dispatch_selects now playerId msg byte s player :
  registry_closed s → players s !! playerId = Some player →
  (∃ k p m, recvbyteList s !! k = Some p ∧ heap s !! p = Some m
            ∧ selects now byte player m = true) →
  ∃ k p m,
    recvbyteList s !! k = Some p ∧ heap s !! p = Some m
    ∧ selects now byte player m = true
    ∧ Modules_executeOnRecvbyte now playerId msg byte s
      = fire now playerId msg p m s.
Proof.
  intros Hcl Hpl (k & p & m & Hk & Hm & Hsel).
  destruct (loop_selects now playerId msg byte player
              (recvbyte_entries (recvbyteList s)) s Hpl)
    as (k' & p' & m' & Hin & Hm' & Hsel' & Hrun).
  { intros k1 p1 H1. apply elem_of_recvbyte_entries in H1 as [H1 _].
    by apply (Hcl k1 p1). }
  { exists k, p, m. split; [|done]. apply elem_of_recvbyte_entries.
    split; [done|]. by apply (Hcl k p). }
  exists k', p', m'.
  apply elem_of_recvbyte_entries in Hin as [Hk' _].
  do 3 (split; [done|]).
  unfold Modules_executeOnRecvbyte, bind, getPlayerByID, gets.
  by rewrite Hpl.
Qed.

(** ... and falls through, leaving the state alone, when none does. *)
Lemma dispatch_falls_through now playerId msg byte s player :
  registry_closed s → players s !! playerId = Some player →
  (∀ k p m, recvbyteList s !! k = Some p → heap s !! p = Some m →
     selects now byte player m = false) →
  Modules_executeOnRecvbyte now playerId msg byte s = Some (tt, s).
Proof.
  intros Hcl Hpl Hnone.
  unfold Modules_executeOnRecvbyte, bind, getPlayerByID, gets.
  rewrite Hpl.
  apply (loop_none _ _ _ _ player); [done|].
  intros k p Hin. apply elem_of_recvbyte_entries in Hin as [Hk _].
  destruct (Hcl k p Hk) as [_ [m Hm]]. exists m. split; [done|].
  by apply (Hnone k p m).
Qed.

Lemma selects_keyed now byte player m k :
  recvbyte m = k →
  selects now byte player m
  = bool_decide (type m = MODULE_TYPE_RECVBYTE) && (k =? byte)
    && canRunModule now byte player.
Proof.
  intros <-. unfold selects.
  destruct (recvbyte m =? byte) eqn:He.
  - apply Z.eqb_eq in He. by rewrite He.
  - by rewrite !andb_false_r.
Qed.

Lemma dispatch_is_direct now playerId msg byte s :
  registry_closed s → registry_keyed s →
  Modules_executeOnRecvbyte now playerId msg byte s
  = dispatch_direct now playerId msg byte s.
Proof.
  intros Hcl Hkey.
  unfold Modules_executeOnRecvbyte, dispatch_direct.
  unfold bind at 1. unfold getPlayerByID, gets at 1.
  destruct (players s !! playerId) as [player|] eqn:Hpl; [|done].
  unfold bind, gets.
  assert (Hother : ∀ es : list (Z * positive), (∀ k p, (k, p) ∈ es →
              recvbyteList s !! k = Some p ∧ k ≠ byte) →
            ∀ k p, (k, p) ∈ es →
              ∃ m, heap s !! p = Some m ∧ selects now byte player m = false).
  { intros es Hes k p He. destruct (Hes k p He) as [Hr Hne].
    destruct (Hcl k p Hr) as [_ [m Hm]]. exists m. split; [done|].
    rewrite (selects_keyed _ _ _ _ k) by by eapply registry_keyed_lookup.
    apply Z.eqb_neq in Hne. rewrite Hne. by rewrite andb_false_r. }
  destruct (recvbyteList s !! byte) as [p|] eqn:Hr.
  - destruct (Hcl byte p Hr) as [Hb [m Hm]]. rewrite Hm.
    assert (He : (byte, p) ∈ recvbyte_entries (recvbyteList s))
      by by apply elem_of_recvbyte_entries.
    assert (Hnd : NoDup (recvbyte_entries (recvbyteList s)).*1).
    { unfold recvbyte_entries.
      assert (Hsub : ∀ ks, (omap (λ k, (λ p, (k, p)) <$> recvbyteList s !! k) ks).*1
                           `sublist_of` ks).
      { induction ks as [|k ks IH]; [done|]. simpl.
        destruct (recvbyteList s !! k); simpl; by constructor. }
      eapply sublist_NoDup; [apply NoDup_seqZ | apply Hsub]. }
    apply list_elem_of_split in He as (es1 & es2 & Hes).
    rewrite Hes in Hnd |- *.
    rewrite fmap_app, fmap_cons in Hnd. simpl in Hnd.
    apply NoDup_app in Hnd as (_ & Hdisj & Hnd2).
    apply NoDup_cons in Hnd2 as [Hnot2 _].
    assert (Hin : ∀ k' p', (k', p') ∈ es1 ++ (byte, p) :: es2 →
                    recvbyteList s !! k' = Some p').
    { intros k' p' Hin. rewrite <- Hes in Hin.
      by apply elem_of_recvbyte_entries in Hin as [? _]. }
    assert (H1 : ∀ k' p', (k', p') ∈ es1 →
               recvbyteList s !! k' = Some p' ∧ k' ≠ byte).
    { intros k' p' Hk. split.
      - apply Hin. apply elem_of_app. by left.
      - intros ->. eapply Hdisj; [|left].
        apply list_elem_of_fmap. by exists (byte, p'). }
    assert (H2 : ∀ k' p', (k', p') ∈ es2 →
               recvbyteList s !! k' = Some p' ∧ k' ≠ byte).
    { intros k' p' Hk. split.
      - apply Hin. apply elem_of_app. right. by right.
      - intros ->. apply Hnot2.
        apply list_elem_of_fmap. by exists (byte, p'). }
    destruct (bool_decide (type m = MODULE_TYPE_RECVBYTE)
              && canRunModule now byte player) eqn:Hsel.
    + apply (loop_first _ _ _ _ player); [done|by apply (Hother es1)|done|].
      rewrite (selects_keyed _ _ _ _ byte) by by eapply registry_keyed_lookup.
      rewrite Z.eqb_refl.
      apply andb_true_iff in Hsel as [-> ->]. done.
    + apply (loop_none _ _ _ _ player); [done|].
      intros k' p' Hk. apply elem_of_app in Hk as [Hk|Hk].
      { by apply (Hother es1 H1 k' p'). }
      apply elem_of_cons in Hk as [[= -> ->]|Hk];
        [|by apply (Hother es2 H2 k' p')].
      exists m. split; [done|].
      rewrite (selects_keyed _ _ _ _ byte) by by eapply registry_keyed_lookup.
      rewrite Z.eqb_refl.
      apply andb_false_iff in Hsel as [-> | ->]; [done|].
      by rewrite andb_false_r.
  - apply (loop_none _ _ _ _ player); [done|].
    apply (Hother (recvbyte_entries (recvbyteList s))). intros k p He.
    apply elem_of_recvbyte_entries in He as [Hk _]. split; [done|].
    intros ->. congruence.
Qed.

(** *** Frames: what each method leaves alone *)

Lemma bridge_frame p playerId msg s s' :
  Module_executeOnRecvbyte p playerId msg s = Some (tt, s') →
  same_registry s s'.
Proof.
  unfold Module_executeOnRecvbyte, bind, reserveScriptEnv.
  destruct (scriptEnvFree s) as [|n]; simpl.
  - unfold derefPlayer, log_error, modify.
    destruct (players s !! playerId); [|done]. by intros [= <-].
  - unfold deref. simpl. destruct (heap s !! p) as [m|]; [|done].
    destruct (scriptInterface m); [|done].
    unfold modify, resetScriptEnv, modify. simpl. by intros [= <-].
Qed.

Lemma fire_frame now playerId msg p m s s' :
  fire now playerId msg p m s = Some (tt, s') → same_registry s s'.
Proof.
  unfold fire, bind at 1. unfold updatePlayer, bind, derefPlayer, modify.
  destruct (players s !! playerId); [|done].
  intros Hb. apply bridge_frame in Hb. exact Hb.
Qed.

Lemma loop_frame now playerId msg byte es : ∀ s s',
  executeOnRecvbyte_loop now playerId msg byte es s = Some (tt, s') →
  same_registry s s'.
Proof.
  induction es as [|[k p] es IH]; intros s s'.
  - by intros [= <-].
  - destruct (heap s !! p) as [m|] eqn:Hm;
      [|by simpl; unfold bind, deref; rewrite Hm].
    destruct (players s !! playerId) as [player|] eqn:Hpl;
      [|by simpl; unfold bind, deref, derefPlayer; rewrite Hm, Hpl].
    rewrite (loop_cons _ _ _ _ _ _ _ _ m player) by done.
    destruct (selects now byte player m); [apply fire_frame | apply IH].
Qed.

Lemma dispatch_frame now playerId msg byte s s' :
  Modules_executeOnRecvbyte now playerId msg byte s = Some (tt, s') →
  same_registry s s'.
Proof.
  unfold Modules_executeOnRecvbyte, bind, getPlayerByID, gets.
  destruct (players s !! playerId); [apply loop_frame | by intros [= <-]].
Qed.

Lemma clear_loop_frame es : ∀ s s',
  clear_loop es s = Some (tt, s') → ∃ h', s' = with_heap h' s.
Proof.
  induction es as [|[k p] es IH]; intros s s'.
  - intros [= <-]. exists (heap s). by destruct s.
  - simpl. unfold bind at 1. unfold update, bind, deref, modify.
    destruct (heap s !! p) as [m|]; [|done].
    intros Hrun. apply IH in Hrun as [h' ->]. by exists h'.
Qed.

Lemma clear_keeps_map s s' :
  Modules_clear s = Some (tt, s') → recvbyteList s' = recvbyteList s.
Proof.
  unfold Modules_clear, bind, gets, modify.
  destruct (clear_loop _ s) as [[[] s1]|] eqn:Hrun; [|done].
  apply clear_loop_frame in Hrun as [h' ->]. by intros [= <-].
Qed.

Lemma getEvent_result nodeName s :
  Modules_getEvent nodeName s = Some (None, s)
  ∨ ∃ p, heap s !! p = None
         ∧ Modules_getEvent nodeName s
           = Some (Some p,
                   with_heap (<[p := Module_new (Some modulesInterface)]> (heap s)) s).
Proof.
  unfold Modules_getEvent.
  destruct (negb (strcasecmp_eq nodeName "module")); [by left|].
  right. exists (fresh (dom (heap s))). split; [|done].
  apply not_elem_of_dom, is_fresh.
Qed.

Lemma configureEvent_at_unfold as_int as_uint p node s m :
  heap s !! p = Some m →
  configureEvent_at as_int as_uint p node s
  = let r := Module_configureEvent as_int as_uint node m in
    Some (r.1.1, with_logger (logger s ++ r.1.2)
                   (with_heap (<[p := r.2]> (heap s)) s)).
Proof.
  intros Hm. unfold configureEvent_at, bind, deref. rewrite Hm.
  by destruct (Module_configureEvent as_int as_uint node m) as [[ok lines] m'].
Qed.

(** *** Every operation keeps the invariant and the stored pointers *)

Section Preservation.

Variable as_int : string → Z.
Variable as_uint : string → Z.

Lemma run_op_keeps_map o s s' :
  run_op as_int as_uint o s = Some (tt, s') →
  ∀ k p, recvbyteList s !! k = Some p → recvbyteList s' !! k = Some p.
Proof.
  destruct o as [nodeName|p node|p node| |now playerId msg byte]; simpl.
  - unfold bind.
    destruct (getEvent_result nodeName s) as [-> | (p & _ & ->)];
      by intros [= <-].
  - unfold bind. destruct (heap s !! p) as [m|] eqn:Hm.
    + rewrite (configureEvent_at_unfold _ _ _ _ _ m) by done.
      by intros [= <-].
    + unfold configureEvent_at, bind, deref. by rewrite Hm.
  - unfold bind. destruct (heap s !! p) as [m|] eqn:Hm.
    + rewrite (registerEvent_unfold _ _ _ m) by done.
      unfold register_outcome.
      destruct (decide (type m = MODULE_TYPE_NONE)); [by intros [= <-]|].
      destruct (recvbyteList s !! recvbyte m) as [old|] eqn:Hold.
      * destruct (heap s !! old) as [o|]; [|done].
        destruct (negb (loaded o) && _); by intros [= <-].
      * intros [= <-] k q Hk. simpl.
        rewrite lookup_insert_ne; [done|]. intros <-. congruence.
    + unfold Modules_registerEvent, bind.
      by rewrite registerEvent_unallocated.
  - intros Hc k p. by rewrite (clear_keeps_map _ _ Hc).
  - intros Hd k p. apply dispatch_frame in Hd as (_ & -> & _). done.
Qed.

Lemma copyEvent_object_ok m o :
  object_ok o → type m ≠ MODULE_TYPE_NONE → type o = type m →
  object_ok (Module_copyEvent m o).
Proof.
  intros (Hb & Hd & _) Hty Heq. split; [exact Hb|]. split; [exact Hd|].
  simpl. intros _. rewrite Heq. by destruct (type m).
Qed.

Lemma run_op_ok o s s' :
  state_ok s → run_op as_int as_uint o s = Some (tt, s') → state_ok s'.
Proof.
  intros (Hcl & Hobj & Hty).
  destruct o as [nodeName|p node|p node| |now playerId msg byte]; simpl.
  - unfold bind.
    destruct (getEvent_result nodeName s) as [-> | (p & Hfresh & ->)];
      intros [= <-]; [done|].
    split; [|split]; [unfold registry_closed|..]; simpl.
    + intros k q Hk. destruct (Hcl k q Hk) as [Hu Hq]. split; [done|].
      rewrite lookup_insert_ne; [done|]. intros <-.
      rewrite Hfresh in Hq. by destruct Hq.
    + intros q m. rewrite lookup_insert. case_decide.
      * intros [= <-]. unfold object_ok, is_uint8, is_int16. simpl.
        split; [lia|]. split; [lia|done].
      * apply Hobj.
    + intros k q m Hk. rewrite lookup_insert_ne; [by apply (Hty k)|].
      intros <-. destruct (Hcl k p Hk) as [_ Hq].
      rewrite Hfresh in Hq. by destruct Hq.
  - unfold bind. destruct (heap s !! p) as [m|] eqn:Hm.
    + rewrite (configureEvent_at_unfold _ _ _ _ _ m) by done.
      intros [= <-]. split; [|split]; [unfold registry_closed|..]; simpl.
      * intros k q Hk. destruct (Hcl k q Hk) as [Hu Hq]. split; [done|].
        rewrite lookup_insert. case_decide; [eauto|done].
      * intros q m'. rewrite lookup_insert. case_decide.
        -- intros [= <-]. apply configureEvent_object_ok. by eapply Hobj.
        -- apply Hobj.
      * intros k q m' Hk. rewrite lookup_insert. case_decide as Heq.
        -- intros [= <-]. apply configureEvent_type. subst q.
           by eapply (Hty k).
        -- by apply (Hty k).
    + unfold configureEvent_at, bind, deref. by rewrite Hm.
  - unfold bind. destruct (heap s !! p) as [m|] eqn:Hm.
    + rewrite (registerEvent_unfold _ _ _ m) by done.
      unfold register_outcome.
      destruct (decide (type m = MODULE_TYPE_NONE)) as [|Hnone];
        [by intros [= <-]|].
      destruct (recvbyteList s !! recvbyte m) as [old|] eqn:Hold.
      * destruct (heap s !! old) as [o|] eqn:Ho; [|done].
        destruct (negb (loaded o) && bool_decide (type o = type m)) eqn:Hg;
          [|by intros [= <-]].
        apply andb_true_iff in Hg as [_ Heq%bool_decide_eq_true].
        intros [= <-]. split; [|split]; [unfold registry_closed|..]; simpl.
        -- intros k q Hk. destruct (Hcl k q Hk) as [Hu Hq]. split; [done|].
           rewrite lookup_insert. case_decide; [eauto|done].
        -- intros q m'. rewrite lookup_insert. case_decide.
           ++ intros [= <-]. apply copyEvent_object_ok; [|done..].
              by eapply Hobj.
           ++ apply Hobj.
        -- intros k q m' Hk. rewrite lookup_insert. case_decide as Hq.
           ++ intros [= <-]. simpl. subst q. by eapply (Hty k).
           ++ by apply (Hty k).
      * intros [= <-]. split; [|split]; [unfold registry_closed|..]; simpl.
        -- intros k q. rewrite lookup_insert. case_decide as Hk.
           ++ intros [= <-]. subst k. split; [by eapply Hobj|eauto].
           ++ apply Hcl.
        -- apply Hobj.
        -- intros k q m'. rewrite lookup_insert. case_decide as Hk.
           ++ intros [= <-] Hm'. rewrite Hm in Hm'. injection Hm' as <-.
              by destruct (type m).
           ++ apply Hty.
    + unfold Modules_registerEvent, bind.
      by rewrite registerEvent_unallocated.
  - destruct (Modules_clear_spec s Hcl) as (h' & -> & Hst & Hun & Hor).
    intros [= <-].
    assert (Hcase : ∀ q m', h' !! q = Some m' →
              ∃ m, heap s !! q = Some m
                   ∧ (m' = m ∨ m' = Module_clearEvent m)).
    { intros q m' Hq. destruct (Hor q) as [He|He]; rewrite He in Hq.
      - eauto.
      - destruct (heap s !! q) as [m|]; [|done]. injection Hq as <-. eauto. }
    split; [|split]; [unfold registry_closed|..]; simpl.
    + intros k q Hk. destruct (Hcl k q Hk) as [Hu [m Hq]]. split; [done|].
      rewrite (Hst k q Hk), Hq. eauto.
    + intros q m' Hq. destruct (Hcase q m' Hq) as (m & Hm & [->| ->]);
        [by eapply Hobj|].
      destruct (Hobj q m Hm) as (Hb & Hd & _).
      split; [exact Hb|]. split; [exact Hd|]. simpl. done.
    + intros k q m' Hk Hq.
      destruct (Hcase q m' Hq) as (m & Hm & [->| ->]); simpl;
        by eapply (Hty k).
  - intros Hd. apply dispatch_frame in Hd as (Hh & Hr & _).
    unfold state_ok, registry_closed. rewrite Hh, Hr. done.
Qed.

End Preservation.

(** *** The bridge, case by case *)

(** The bridge with no free environment: one log line, nothing else. *)
Lemma bridge_exhausted p playerId msg s player :
  scriptEnvFree s = 0%nat → players s !! playerId = Some player →
  Module_executeOnRecvbyte p playerId msg s
  = Some (tt, with_logger (logger s ++ [overflow_line player]) s).
Proof.
  intros He Hpl.
  unfold Module_executeOnRecvbyte, bind, reserveScriptEnv. rewrite He. simpl.
  unfold derefPlayer. by rewrite Hpl.
Qed.

(** The bridge with a free environment and a runtime: one script call, and
    the environment is free again. *)
Lemma bridge_calls p playerId msg s m i n :
  scriptEnvFree s = S n → heap s !! p = Some m →
  scriptInterface m = Some i →
  Module_executeOnRecvbyte p playerId msg s
  = Some (tt, with_calls
                (calls s ++ [{| call_scriptId := scriptId m;
                                call_interface := i;
                                call_player := playerId; call_msg := msg;
                                call_byte := recvbyte m |}]) s).
Proof.
  intros He Hm Hi.
  unfold Module_executeOnRecvbyte, bind, reserveScriptEnv. rewrite He. simpl.
  unfold deref. simpl. rewrite Hm, Hi.
  unfold modify, resetScriptEnv, modify. simpl.
  destruct s. simpl in *. by rewrite He.
Qed.

(** The bridge with a free environment on a record without a runtime:
    the null pointer is dereferenced. *)
Lemma bridge_null_runtime p playerId msg s m n :
  scriptEnvFree s = S n → heap s !! p = Some m →
  scriptInterface m = None →
  Module_executeOnRecvbyte p playerId msg s = None.
Proof.
  intros He Hm Hi.
  unfold Module_executeOnRecvbyte, bind, reserveScriptEnv. rewrite He. simpl.
  unfold deref. simpl. by rewrite Hm, Hi.
Qed.

Lemma setModuleDelay_blocks now byte d player t :
  t < now + d → canRunModule t byte (setModuleDelay now byte d player) = false.
Proof.
  intros Ht. unfold canRunModule, setModuleDelay. simpl.
  rewrite lookup_insert_eq. apply Z.leb_gt. lia.
Qed.

(** *** Records stay under their own opcode *)

Section Keyed.

Variable as_int : string → Z.
Variable as_uint : string → Z.

Lemma run_op_keyed o s s' :
  registry_closed s → registry_keyed s → op_respects_keys s o →
  run_op as_int as_uint o s = Some (tt, s') → registry_keyed s'.
Proof.
  intros Hcl Hkey Hresp.
  destruct o as [nodeName|p node|p node| |now playerId msg byte]; simpl.
  - unfold bind.
    destruct (getEvent_result nodeName s) as [-> | (p & Hfresh & ->)];
      intros [= <-]; [done|].
    intros k q Hk. specialize (Hkey k q Hk). unfold keyed_at in *. simpl.
    rewrite lookup_insert_ne; [done|]. intros <-.
    destruct (Hcl k p Hk) as [_ Hq]. rewrite Hfresh in Hq. by destruct Hq.
  - unfold bind. destruct (heap s !! p) as [m|] eqn:Hm.
    + rewrite (configureEvent_at_unfold _ _ _ _ _ m) by done.
      intros [= <-] k q Hk. specialize (Hkey k q Hk).
      unfold keyed_at in *. simpl in *.
      rewrite lookup_insert_ne; [done|]. intros <-. by apply (Hresp k).
    + unfold configureEvent_at, bind, deref. by rewrite Hm.
  - unfold bind. destruct (heap s !! p) as [m|] eqn:Hm.
    + rewrite (registerEvent_unfold _ _ _ m) by done.
      unfold register_outcome.
      destruct (decide (type m = MODULE_TYPE_NONE)); [by intros [= <-]|].
      destruct (recvbyteList s !! recvbyte m) as [old|] eqn:Hold.
      * destruct (heap s !! old) as [o|] eqn:Ho; [|done].
        destruct (negb (loaded o) && _); [|by intros [= <-]].
        intros [= <-] k q Hk. specialize (Hkey k q Hk).
        unfold keyed_at in *. simpl in *.
        rewrite lookup_insert. case_decide as Hq; [|done].
        subst q. by rewrite Ho in Hkey.
      * intros [= <-] k q. simpl. rewrite lookup_insert.
        case_decide as Hk.
        -- intros [= <-]. unfold keyed_at. simpl. by rewrite Hm.
        -- apply Hkey.
    + unfold Modules_registerEvent, bind.
      by rewrite registerEvent_unallocated.
  - destruct (Modules_clear_spec s Hcl) as (h' & -> & _ & _ & Hor).
    intros [= <-] k q Hk. specialize (Hkey k q Hk).
    unfold keyed_at in *. simpl in *.
    destruct (Hor q) as [-> | ->]; [done|].
    by destruct (heap s !! q).
  - intros Hd. apply dispatch_frame in Hd as (Hh & Hr & _).
    unfold registry_keyed, keyed_at. rewrite Hh, Hr. exact Hkey.
Qed.

End Keyed.

Section Runs.

Variable as_int : string → Z.
Variable as_uint : string → Z.

Lemma run_ops_ok os : ∀ s s',
  state_ok s → run_ops as_int as_uint os s = Some (tt, s') → state_ok s'.
Proof.
  induction os as [|o os IH]; intros s s' Hok; simpl.
  - by intros [= <-].
  - unfold bind.
    destruct (run_op as_int as_uint o s) as [[[] s1]|] eqn:Ho; [|done].
    intros Hrun. eapply IH; [|exact Hrun]. by eapply run_op_ok.
Qed.

Lemma run_ops_keeps_map os : ∀ s s',
  run_ops as_int as_uint os s = Some (tt, s') →
  ∀ k p, recvbyteList s !! k = Some p → recvbyteList s' !! k = Some p.
Proof.
  induction os as [|o os IH]; intros s s'; simpl.
  - by intros [= <-].
  - unfold bind.
    destruct (run_op as_int as_uint o s) as [[[] s1]|] eqn:Ho; [|done].
    intros Hrun k p Hk. eapply IH; [exact Hrun|].
    by eapply run_op_keeps_map.
Qed.

End Runs.

Lemma Modules_new_ok ps envs : state_ok (Modules_new ps envs).
Proof.
  split; [|split]; [unfold registry_closed|..]; simpl.
  - intros k p. by rewrite lookup_empty.
  - intros p m. by rewrite lookup_empty.
  - intros k p m. by rewrite lookup_empty.
Qed.

(* ===================================================================== *)
(** ** Registration *)

(** C4. Two-pass loading: when the entry stored at opcode [k] is not loaded
    and has kind on-receive-byte, registering a second record with the same
    opcode and kind returns true; the map is unchanged, so [k] still holds
    the original object, whose script id, runtime reference, [scripted] and
    [loaded] are now those of the second record and whose opcode, kind and
    delay are as before; no other object is written. *)
Theorem register_copy_binds (s : State) (k : Z) (p0 p1 : positive)
    (m0 m1 : ModuleObj) (node : xml_node) :
  recvbyteList s !! k = Some p0 →
  heap s !! p0 = Some m0 →
  loaded m0 = false →
  type m0 = MODULE_TYPE_RECVBYTE →
  heap s !! p1 = Some m1 →
  recvbyte m1 = k →
  type m1 = MODULE_TYPE_RECVBYTE →
  ∃ s' m0',
    Modules_registerEvent p1 node s = Some (true, s')
    ∧ recvbyteList s' = recvbyteList s
    ∧ recvbyteList s' !! k = Some p0
    ∧ heap s' !! p0 = Some m0'
    ∧ scriptId m0' = scriptId m1
    ∧ scriptInterface m0' = scriptInterface m1
    ∧ scripted m0' = scripted m1
    ∧ loaded m0' = loaded m1
    ∧ recvbyte m0' = recvbyte m0
    ∧ type m0' = type m0
    ∧ delay m0' = delay m0
    ∧ ∀ q, q ≠ p0 → heap s' !! q = heap s !! q.
Proof.
  intros Hk H0 Hl0 Ht0 H1 Hb1 Ht1.
  exists (with_heap (<[p0 := Module_copyEvent m1 m0]> (heap s)) s),
         (Module_copyEvent m1 m0).
  split.
  - rewrite (registerEvent_unfold _ _ _ m1) by done.
    unfold register_outcome. rewrite Ht1, Hb1, Hk, H0, Hl0, Ht0. done.
  - simpl. rewrite lookup_insert_eq.
    repeat split; try done.
    intros q Hq. by rewrite lookup_insert_ne.
Qed.

Lemma register_copy_binds_witness :
  ∃ s' m0',
    Modules_registerEvent 2 [] (registry_with placeholder7 16) = Some (true, s')
    ∧ recvbyteList s' = recvbyteList (registry_with placeholder7 16)
    ∧ recvbyteList s' !! 7 = Some 1%positive
    ∧ heap s' !! 1%positive = Some m0'
    ∧ scriptId m0' = scriptId bound7
    ∧ scriptInterface m0' = scriptInterface bound7
    ∧ scripted m0' = scripted bound7
    ∧ loaded m0' = loaded bound7
    ∧ recvbyte m0' = recvbyte placeholder7
    ∧ type m0' = type placeholder7
    ∧ delay m0' = delay placeholder7
    ∧ ∀ q, q ≠ 1%positive →
        heap s' !! q = heap (registry_with placeholder7 16) !! q.
Proof.
  apply (register_copy_binds (registry_with placeholder7 16) 7 1 2
           placeholder7 bound7 []); reflexivity.
Defined.

(** C5. Conflicting registration: when the entry stored at opcode [k] is
    loaded, or its kind differs from that of the record being registered,
    registering a record with opcode [k] returns false and leaves the map
    and every object as they were. *)
Theorem register_conflict_rejected (s : State) (k : Z) (p0 p1 : positive)
    (m0 m1 : ModuleObj) (node : xml_node) :
  recvbyteList s !! k = Some p0 →
  heap s !! p0 = Some m0 →
  heap s !! p1 = Some m1 →
  recvbyte m1 = k →
  loaded m0 = true ∨ type m0 ≠ type m1 →
  ∃ s',
    Modules_registerEvent p1 node s = Some (false, s')
    ∧ recvbyteList s' = recvbyteList s
    ∧ heap s' = heap s
    ∧ heap s' !! p0 = Some m0.
Proof.
  intros Hk H0 H1 Hb1 Hc.
  rewrite (registerEvent_unfold _ _ _ m1) by done.
  unfold register_outcome.
  destruct (decide (type m1 = MODULE_TYPE_NONE)) as [Hn|Hn]; simpl.
  - eexists. by repeat split.
  - rewrite Hb1, Hk, H0.
    assert (negb (loaded m0) && bool_decide (type m0 = type m1) = false)
      as ->.
    { destruct Hc as [-> | Hne]; [done|].
      rewrite (bool_decide_eq_false_2 _ Hne). apply andb_false_r. }
    simpl. eexists. by repeat split.
Qed.

Lemma register_conflict_rejected_witness :
  ∃ s',
    Modules_registerEvent 2 [] (registry_with bound7 16) = Some (false, s')
    ∧ recvbyteList s' = recvbyteList (registry_with bound7 16)
    ∧ heap s' = heap (registry_with bound7 16)
    ∧ heap s' !! 1%positive = Some bound7.
Proof.
  apply (register_conflict_rejected (registry_with bound7 16) 7 1 2
           bound7 bound7 []); try reflexivity.
  left. reflexivity.
Defined.

(** The call returns whenever its argument points to an object and the
    stored pointers do. *)
Lemma registerEvent_returns event node s m :
  registry_closed s → heap s !! event = Some m →
  ∃ path s',
    Modules_registerEvent_path event node s = Some (path, s')
    ∧ Modules_registerEvent event node s = Some (register_result path, s').
Proof.
  intros Hcl Hev.
  rewrite (registerEvent_unfold _ _ _ m), (registerEvent_path_unfold _ _ _ m)
    by done.
  unfold register_outcome.
  destruct (decide (type m = MODULE_TYPE_NONE)); [by eauto|].
  destruct (recvbyteList s !! recvbyte m) as [old|] eqn:Hold; [|by eauto].
  destruct (Hcl _ _ Hold) as [_ [o ->]].
  destruct (negb (loaded o) && _); by eauto.
Qed.

(** C8. Failed configuration: on a record that has never been configured
    (kind none, not loaded), a node without a type attribute, or whose type
    is not "recvbyte" in any letter case, or of type "recvbyte" without a
    byte attribute, makes [configureEvent] return false and leaves the
    record with kind none and not loaded; registering that record then
    logs "Trying to register event without type!" and returns false, and
    the map stays as it was. *)
Theorem failed_configure_is_rejected (as_int as_uint : string → Z)
    (s : State) (p : positive) (m : ModuleObj) (node : xml_node) :
  heap s !! p = Some m →
  type m = MODULE_TYPE_NONE →
  loaded m = false →
  config_fails node →
  ∃ s1 m1 s2,
    configureEvent_at as_int as_uint p node s = Some (false, s1)
    ∧ heap s1 !! p = Some m1
    ∧ type m1 = MODULE_TYPE_NONE
    ∧ loaded m1 = false
    ∧ recvbyteList s1 = recvbyteList s
    ∧ Modules_registerEvent p node s1 = Some (false, s2)
    ∧ logger s2 = logger s1 ++ ["Trying to register event without type!"]
    ∧ recvbyteList s2 = recvbyteList s
    ∧ heap s2 = heap s1.
Proof.
  intros Hm Hty Hl Hf.
  destruct (configureEvent_fails as_int as_uint node m Hf) as [line Hc].
  set (s1 := with_logger (logger s ++ [line])
               (with_heap (<[p := set_delay 0 m]> (heap s)) s)).
  assert (H1 : heap s1 !! p = Some (set_delay 0 m))
    by apply lookup_insert_eq.
  exists s1, (set_delay 0 m),
    (with_logger (logger s1 ++ ["Trying to register event without type!"]) s1).
  split.
  { rewrite (configureEvent_at_unfold _ _ _ _ _ m) by done. by rewrite Hc. }
  do 4 (split; [done|]).
  split; [|done].
  rewrite (registerEvent_unfold _ _ _ (set_delay 0 m)) by done.
  unfold register_outcome. simpl type. rewrite Hty. done.
Qed.

Lemma failed_configure_is_rejected_witness :
  ∃ s1 m1 s2,
    configureEvent_at read_decimal read_decimal 3 node_untyped
      (registry_with bound7 16) = Some (false, s1)
    ∧ heap s1 !! 3%positive = Some m1
    ∧ type m1 = MODULE_TYPE_NONE
    ∧ loaded m1 = false
    ∧ recvbyteList s1 = recvbyteList (registry_with bound7 16)
    ∧ Modules_registerEvent 3 node_untyped s1 = Some (false, s2)
    ∧ logger s2 = logger s1 ++ ["Trying to register event without type!"]
    ∧ recvbyteList s2 = recvbyteList (registry_with bound7 16)
    ∧ heap s2 = heap s1.
Proof.
  apply (failed_configure_is_rejected read_decimal read_decimal
           (registry_with bound7 16) 3 unconfigured node_untyped);
    try reflexivity.
  left. reflexivity.
Defined.

(* ===================================================================== *)
(** ** Clearing *)

(** C7. [clear] returns on every registry whose stored pointers hold
    objects, without logging; afterwards the map has exactly the entries it
    had, the runtime has been reinitialised, and every stored record is not
    loaded, has script id 0, is not scripted and refers to no runtime, with
    its opcode, kind and delay as before. *)
Theorem clear_unbinds_every_entry (s : State) :
  registry_closed s →
  ∃ s',
    Modules_clear s = Some (tt, s')
    ∧ recvbyteList s' = recvbyteList s
    ∧ luaInterface s' = reInitState (luaInterface s)
    ∧ logger s' = logger s
    ∧ ∀ k p, recvbyteList s !! k = Some p →
        ∃ m m',
          heap s !! p = Some m
          ∧ heap s' !! p = Some m'
          ∧ loaded m' = false
          ∧ scriptId m' = 0
          ∧ scripted m' = false
          ∧ scriptInterface m' = None
          ∧ recvbyte m' = recvbyte m
          ∧ type m' = type m
          ∧ delay m' = delay m.
Proof.
  intros Hcl.
  destruct (Modules_clear_spec s Hcl) as (h' & Hrun & Hst & _ & _).
  eexists. split; [exact Hrun|]. simpl.
  do 3 (split; [done|]).
  intros k p Hk. destruct (Hcl k p Hk) as [_ [m Hm]].
  exists m, (Module_clearEvent m).
  rewrite (Hst k p Hk), Hm. by repeat split.
Qed.

Lemma clear_unbinds_every_entry_witness :
  ∃ s',
    Modules_clear (registry_with bound7 16) = Some (tt, s')
    ∧ recvbyteList s' = recvbyteList (registry_with bound7 16)
    ∧ luaInterface s' = reInitState (luaInterface (registry_with bound7 16))
    ∧ logger s' = logger (registry_with bound7 16)
    ∧ ∀ k p, recvbyteList (registry_with bound7 16) !! k = Some p →
        ∃ m m',
          heap (registry_with bound7 16) !! p = Some m
          ∧ heap s' !! p = Some m'
          ∧ loaded m' = false
          ∧ scriptId m' = 0
          ∧ scripted m' = false
          ∧ scriptInterface m' = None
          ∧ recvbyte m' = recvbyte m
          ∧ type m' = type m
          ∧ delay m' = delay m.
Proof.
  apply (clear_unbinds_every_entry (registry_with bound7 16)).
  apply (bool_decide_unpack _). vm_compute. exact I.
Defined.

(* ===================================================================== *)
(** ** The map only grows *)

(** C9. Over any sequence of operations (registrations and clears among
    them) every opcode that is stored stays stored, with the same object
    behind it. A call of [registerEvent] never leaves through the
    assignment [it->second = module]: when it succeeds it either emplaces
    the new pointer under an opcode that was absent, or copies the binding
    into the object already stored and leaves the map alone; when it fails
    it changes neither the map nor any object. The reason is that the lookup
    with [force = false] returns whatever the map holds at the opcode. *)
Theorem stored_records_are_never_replaced :
  (∀ (as_int as_uint : string → Z) (os : list Op) (s s' : State)
     (k : Z) (p : positive),
     run_ops as_int as_uint os s = Some (tt, s') →
     recvbyteList s !! k = Some p →
     recvbyteList s' !! k = Some p)
  ∧ (∀ (event : positive) (node : xml_node) (s s' : State)
       (path : RegisterPath),
       Modules_registerEvent_path event node s = Some (path, s') →
       ∃ m, heap s !! event = Some m ∧
         match path with
         | RegOverwrote => False
         | RegEmplaced =>
             recvbyteList s !! recvbyte m = None
             ∧ recvbyteList s' = <[recvbyte m := event]> (recvbyteList s)
             ∧ heap s' = heap s
         | RegCopied =>
             ∃ old o,
               recvbyteList s !! recvbyte m = Some old
               ∧ heap s !! old = Some o
               ∧ recvbyteList s' = recvbyteList s
               ∧ heap s' = <[old := Module_copyEvent m o]> (heap s)
         | RegNoType | RegConflict =>
             recvbyteList s' = recvbyteList s ∧ heap s' = heap s
         end)
  ∧ (∀ (rb : Z) (s : State),
       Modules_getEventByRecvbyte rb false s = Some (recvbyteList s !! rb, s)).
Proof.
  split; [|split].
  - intros as_int as_uint os s s' k p Hrun Hk.
    by eapply run_ops_keeps_map.
  - intros event node s s' path.
    destruct (heap s !! event) as [m|] eqn:Hev;
      [|by rewrite registerEvent_unallocated].
    rewrite (registerEvent_path_unfold _ _ _ m) by done.
    unfold register_outcome. intros Hout. exists m. split; [done|].
    destruct (decide (type m = MODULE_TYPE_NONE)).
    { by injection Hout as <- <-. }
    destruct (recvbyteList s !! recvbyte m) as [old|] eqn:Hold.
    + destruct (heap s !! old) as [o|] eqn:Ho; [|done].
      destruct (negb (loaded o) && _); injection Hout as <- <-; [|done].
      by exists old, o.
    + by injection Hout as <- <-.
  - apply getEventByRecvbyte_unforced.
Qed.

(** Opcode 7 is stored; the registry is cleared, a bound record for opcode
    7 is registered (copied into the stored one) and an unconfigured record
    is refused. *)
Lemma stored_records_are_never_replaced_witness :
  ∃ s',
    run_ops read_decimal read_decimal
      [OpClear; OpRegister 2 []; OpRegister 3 []] (registry_with bound7 16)
    = Some (tt, s')
    ∧ recvbyteList s' !! 7 = Some 1%positive.
Proof.
  eexists.
  split; [vm_compute; reflexivity|].
  eapply (proj1 stored_records_are_never_replaced
            read_decimal read_decimal
            [OpClear; OpRegister 2 []; OpRegister 3 []]
            (registry_with bound7 16) _ 7 1%positive).
  - vm_compute. reflexivity.
  - reflexivity.
Defined.

(* ===================================================================== *)
(** ** What [loaded] means *)

(** C3, as the code has it. In every state reached from a new registry, a
    record that is loaded has kind on-receive-byte: configuration has been
    applied to it with success. A successful [configureEvent] sets [loaded]
    and leaves [scripted] and the script id as they were, so a loaded record
    need not be scripted. *)
Theorem loaded_means_configured :
  (∀ (as_int as_uint : string → Z) (ps : gmap Z Player) (envs : nat)
     (os : list Op) (s : State) (p : positive) (m : ModuleObj),
     run_ops as_int as_uint os (Modules_new ps envs) = Some (tt, s) →
     heap s !! p = Some m →
     loaded m = true →
     type m = MODULE_TYPE_RECVBYTE)
  ∧ (∀ (as_int as_uint : string → Z) (node : xml_node) (m m' : ModuleObj)
       (lines : list string),
       Module_configureEvent as_int as_uint node m = (true, lines, m') →
       loaded m' = true ∧ scripted m' = scripted m
       ∧ scriptId m' = scriptId m).
Proof.
  split.
  - intros as_int as_uint ps envs os s p m Hrun Hm Hl.
    pose proof (run_ops_ok _ _ _ _ _ (Modules_new_ok ps envs) Hrun)
      as (_ & Hobj & _).
    destruct (Hobj p m Hm) as (_ & _ & Hty). by apply Hty.
  - intros as_int as_uint node m m' lines Hc.
    by apply configureEvent_succeeds in Hc as (t & b & _ & _ & _ & _ & ->).
Qed.

Lemma loaded_means_configured_witness :
  ∃ s m,
    run_ops read_decimal read_decimal (load node7 1 ++ [OpClear] ++ load node7 2)
      (world 16) = Some (tt, s)
    ∧ heap s !! 1%positive = Some m
    ∧ loaded m = true
    ∧ type m = MODULE_TYPE_RECVBYTE.
Proof.
  eexists. eexists.
  split; [vm_compute; reflexivity|].
  split; [vm_compute; reflexivity|].
  split; [reflexivity|].
  eapply (proj1 loaded_means_configured read_decimal read_decimal
            {[ 42 := alice ]} 16%nat
            (load node7 1 ++ [OpClear] ++ load node7 2) _ 1%positive).
  - vm_compute. reflexivity.
  - vm_compute. reflexivity.
  - reflexivity.
Defined.

(** C3 fails as stated: after one record is allocated, configured from a
    valid node and registered, the stored record is loaded, yet it is not
    scripted and its script id is 0. *)
Lemma loaded_without_script :
  ∃ s m,
    run_ops read_decimal read_decimal (load node7 1) (world 16) = Some (tt, s)
    ∧ recvbyteList s !! 7 = Some 1%positive
    ∧ heap s !! 1%positive = Some m
    ∧ loaded m = true
    ∧ ¬ (scripted m = true ∧ scriptId m ≠ 0).
Proof.
  eexists. eexists.
  split; [vm_compute; reflexivity|].
  split; [vm_compute; reflexivity|].
  split; [vm_compute; reflexivity|].
  split; [reflexivity|].
  intros [Hs _]. discriminate Hs.
Qed.

(* ===================================================================== *)
(** ** The delay *)

Lemma to_int16_cases x :
  to_int16 x = if x mod 65536 <? 32768 then x mod 65536
               else x mod 65536 - 65536.
Proof.
  unfold to_int16. destruct (Z.ltb_spec (x mod 65536) 32768);
    Z.div_mod_to_equations; lia.
Qed.

(** C6, as the code has it. In every state reached from a new registry the
    delay of every record is within the signed 16-bit range. After
    [configureEvent] the delay is 0 when the method fails or the node has no
    delay attribute, and otherwise the decoded unsigned value wrapped to 16
    bits: with [r] the value modulo 65536, it is [r] when [r < 32768] and
    [r - 65536], a negative number, when not. *)
Theorem delay_is_wrapped_to_int16 :
  (∀ (as_int as_uint : string → Z) (ps : gmap Z Player) (envs : nat)
     (os : list Op) (s : State) (p : positive) (m : ModuleObj),
     run_ops as_int as_uint os (Modules_new ps envs) = Some (tt, s) →
     heap s !! p = Some m →
     is_int16 (delay m))
  ∧ (∀ (as_int as_uint : string → Z) (node : xml_node) (m : ModuleObj),
       delay (Module_configureEvent as_int as_uint node m).2
       = match attribute "delay" node with
         | Some d =>
             if (Module_configureEvent as_int as_uint node m).1.1
             then to_int16 (as_uint (attr_text d))
             else 0
         | None => 0
         end)
  ∧ (∀ x : Z,
       to_int16 x = if x mod 65536 <? 32768 then x mod 65536
                    else x mod 65536 - 65536).
Proof.
  split; [|split].
  - intros as_int as_uint ps envs os s p m Hrun Hm.
    pose proof (run_ops_ok _ _ _ _ _ (Modules_new_ok ps envs) Hrun)
      as (_ & Hobj & _).
    by destruct (Hobj p m Hm) as (_ & Hd & _).
  - intros as_int as_uint node m.
    destruct (configureEvent_result as_int as_uint node m)
      as [Hf | (lines & m' & Hs)].
    + destruct (configureEvent_fails as_int as_uint node m Hf) as [line ->].
      simpl. by destruct (attribute "delay" node).
    + rewrite Hs. simpl.
      by apply configureEvent_succeeds in Hs as (t & b & _ & _ & _ & _ & ->).
  - apply to_int16_cases.
Qed.

Lemma delay_is_wrapped_to_int16_witness :
  ∃ s m,
    run_ops read_decimal read_decimal (load node9 1) (world 16) = Some (tt, s)
    ∧ heap s !! 1%positive = Some m
    ∧ is_int16 (delay m).
Proof.
  eexists. eexists.
  split; [vm_compute; reflexivity|].
  split; [vm_compute; reflexivity|].
  eapply (proj1 delay_is_wrapped_to_int16 read_decimal read_decimal
            {[ 42 := alice ]} 16%nat (load node9 1) _ 1%positive).
  - vm_compute. reflexivity.
  - vm_compute. reflexivity.
Defined.

(** C6 fails as stated: a node with delay="40000" configures and registers
    a record whose delay is -25536. *)
Lemma negative_delay :
  ∃ s m,
    run_ops read_decimal read_decimal (load node9 1) (world 16) = Some (tt, s)
    ∧ recvbyteList s !! 9 = Some 1%positive
    ∧ heap s !! 1%positive = Some m
    ∧ delay m = -25536
    ∧ ¬ (0 <= delay m).
Proof.
  eexists. eexists.
  split; [vm_compute; reflexivity|].
  split; [vm_compute; reflexivity|].
  split; [vm_compute; reflexivity|].
  split; [reflexivity|].
  simpl. lia.
Qed.

(* ===================================================================== *)
(** ** Dispatch *)

(** C2, as the code has it. When dispatch selects a handler (some stored
    record has kind on-receive-byte and the opcode of the message, and the
    throttle of the player permits) and no script environment is free, the
    call returns, the overflow is logged and no script is called, but the
    throttle has been armed before the bridge was entered: the player's next
    time for the opcode is now + the delay of the selected record, and until
    then the throttle refuses the opcode. The record selected is the first
    stored one that has the kind and the opcode; when records are stored
    under their own opcodes it is the record stored at the opcode. *)
Theorem exhausted_pool_still_arms_throttle (now playerId : Z)
    (msg : NetworkMessage) (byte : Z) (s : State) (k : Z) (p : positive)
    (m : ModuleObj) (player : Player) :
  registry_closed s →
  players s !! playerId = Some player →
  recvbyteList s !! k = Some p →
  heap s !! p = Some m →
  type m = MODULE_TYPE_RECVBYTE →
  recvbyte m = byte →
  throttle_permits now byte player →
  scriptEnvFree s = 0%nat →
  ∃ s' k' p' m',
    recvbyteList s !! k' = Some p'
    ∧ heap s !! p' = Some m'
    ∧ type m' = MODULE_TYPE_RECVBYTE
    ∧ recvbyte m' = byte
    ∧ Modules_executeOnRecvbyte now playerId msg byte s = Some (tt, s')
    ∧ logger s' = logger s ++ [overflow_line player]
    ∧ calls s' = calls s
    ∧ players s' !! playerId
      = Some (setModuleDelay now byte (delay m') player)
    ∧ ∀ t, t < now + delay m' →
        canRunModule t byte (setModuleDelay now byte (delay m') player)
        = false.
Proof.
  intros Hcl Hpl Hk Hm Hty Hb Hcan He.
  destruct (dispatch_selects now playerId msg byte s player Hcl Hpl)
    as (k' & p' & m' & Hk' & Hm' & Hsel' & Hrun).
  { exists k, p, m. do 2 (split; [done|]). by apply selects_intro. }
  apply selects_true in Hsel' as (Hty' & Hb' & _).
  set (player' := setModuleDelay now byte (delay m') player).
  set (s1 := with_players (<[playerId := player']> (players s)) s).
  assert (Hfire : fire now playerId msg p' m' s
                  = Some (tt, with_logger (logger s ++ [overflow_line player]) s1)).
  { unfold fire. rewrite Hb'.
    unfold bind at 1. unfold updatePlayer, bind, derefPlayer, modify.
    rewrite Hpl. fold player'. fold s1.
    by rewrite (bridge_exhausted p' playerId msg s1 player' He
                  (lookup_insert_eq _ _ _)). }
  eexists _, k', p', m'. do 4 (split; [done|]).
  split; [by rewrite Hrun|]. simpl.
  do 2 (split; [done|]). split; [by rewrite lookup_insert_eq|].
  intros t Ht. by apply setModuleDelay_blocks.
Qed.

(** No environment free, and the record stored under opcode 7 has opcode 9
    as its own: a message with opcode 9 selects it. *)
Lemma exhausted_pool_still_arms_throttle_witness :
  ∃ s' k' p' m',
    recvbyteList (registry_with bound9 0) !! k' = Some p'
    ∧ heap (registry_with bound9 0) !! p' = Some m'
    ∧ type m' = MODULE_TYPE_RECVBYTE
    ∧ recvbyte m' = 9
    ∧ Modules_executeOnRecvbyte 0 42 [] 9 (registry_with bound9 0)
      = Some (tt, s')
    ∧ logger s' = logger (registry_with bound9 0) ++ [overflow_line alice]
    ∧ calls s' = calls (registry_with bound9 0)
    ∧ players s' !! 42 = Some (setModuleDelay 0 9 (delay m') alice)
    ∧ ∀ t, t < 0 + delay m' →
        canRunModule t 9 (setModuleDelay 0 9 (delay m') alice) = false.
Proof.
  apply (exhausted_pool_still_arms_throttle 0 42 [] 9 (registry_with bound9 0)
           7 1 bound9 alice).
  - apply (bool_decide_unpack _). vm_compute. exact I.
  - reflexivity.
  - reflexivity.
  - reflexivity.
  - reflexivity.
  - reflexivity.
  - reflexivity.
  - reflexivity.
Defined.

(** C2 fails as stated: with no environment free, a message for opcode 7 is
    logged and skipped, yet the throttle of the player is armed for 250 ms;
    a second message at the same instant is not dispatched even though an
    environment is free by then. *)
Lemma exhaustion_arms_throttle :
  ∃ s',
    scriptEnvFree (registry_with bound7 0) = 0%nat
    ∧ Modules_executeOnRecvbyte 0 42 [] 7 (registry_with bound7 0)
      = Some (tt, s')
    ∧ logger s' = [overflow_line alice]
    ∧ calls s' = []
    ∧ (players s' !! 42 ≫= λ pl, moduleDelayMap pl !! 7) = Some 250
    ∧ (canRunModule 0 7 <$> players s' !! 42) = Some false
    ∧ Modules_executeOnRecvbyte 0 42 [] 7 (with_scriptEnvFree 16 s')
      = Some (tt, with_scriptEnvFree 16 s').
Proof.
  eexists.
  split; [reflexivity|].
  split; [vm_compute; reflexivity|].
  repeat split; vm_compute; reflexivity.
Qed.

(** C1: the code enters the handler of a record that is not loaded. After
    a record for opcode 7 is registered and the registry is cleared, the
    stored record is not loaded and has no runtime; a message with opcode 7
    from a player whose throttle permits still selects it. With a free
    script environment the bridge then dereferences the null runtime
    pointer; with none free the bridge logs the overflow, and the throttle
    has been armed for the record's delay. *)
Theorem dispatch_enters_unloaded_handler :
  ∃ s m,
    run_ops read_decimal read_decimal (load node7 1 ++ [OpClear]) (world 16)
    = Some (tt, s)
    ∧ recvbyteList s !! 7 = Some 1%positive
    ∧ heap s !! 1%positive = Some m
    ∧ loaded m = false
    ∧ type m = MODULE_TYPE_RECVBYTE
    ∧ scriptInterface m = None
    ∧ ((λ pl, selects 0 7 pl m) <$> players s !! 42) = Some true
    ∧ Modules_executeOnRecvbyte 0 42 [] 7 s = None
    ∧ ∃ s',
        Modules_executeOnRecvbyte 0 42 [] 7 (with_scriptEnvFree 0 s)
        = Some (tt, s')
        ∧ logger s' = [overflow_line alice]
        ∧ (players s' !! 42 ≫= λ pl, moduleDelayMap pl !! 7) = Some 1000.
Proof.
  eexists. eexists.
  split; [vm_compute; reflexivity|].
  split; [vm_compute; reflexivity|].
  split; [vm_compute; reflexivity|].
  do 4 (split; [reflexivity|]).
  split; [vm_compute; reflexivity|].
  eexists.
  split; [vm_compute; reflexivity|].
  split; vm_compute; reflexivity.
Qed.

(* ===================================================================== *)
(** ** Scenarios *)

(** A bound handler for opcode 7, a message with opcode 7: one call. *)
Example dispatch_matching_opcode :
  calls <$> (snd <$> Modules_executeOnRecvbyte 0 42 [] 7 (registry_with bound7 16))
  = Some [call7].
Proof. vm_compute. reflexivity. Qed.

(** Another opcode, or a player that is not online: nothing happens. *)
Example dispatch_other_opcode :
  Modules_executeOnRecvbyte 0 42 [] 11 (registry_with bound7 16)
  = Some (tt, registry_with bound7 16).
Proof. vm_compute. reflexivity. Qed.

Example dispatch_unknown_player :
  Modules_executeOnRecvbyte 0 43 [] 7 (registry_with bound7 16)
  = Some (tt, registry_with bound7 16).
Proof. vm_compute. reflexivity. Qed.

(** The delay of the handler is 250: of three messages at times 0, 100 and
    250, the first and the third reach the script. *)
Example dispatch_throttled :
  calls <$> (snd <$>
    (Modules_executeOnRecvbyte 0 42 [] 7 ;;
     Modules_executeOnRecvbyte 100 42 [] 7) (registry_with bound7 16))
  = Some [call7]
  ∧ calls <$> (snd <$>
      (Modules_executeOnRecvbyte 0 42 [] 7 ;;
       Modules_executeOnRecvbyte 100 42 [] 7 ;;
       Modules_executeOnRecvbyte 250 42 [] 7) (registry_with bound7 16))
    = Some [call7; call7].
Proof. split; vm_compute; reflexivity. Qed.

(** The three ways out of [registerEvent] that a run can take besides the
    refusal of an untyped record. *)
Example register_paths :
  fst <$> Modules_registerEvent_path 2 [] (registry_with placeholder7 16)
  = Some RegCopied
  ∧ fst <$> Modules_registerEvent_path 2 [] (registry_with bound7 16)
    = Some RegConflict
  ∧ fst <$> Modules_registerEvent_path 2 []
              (with_recvbyteList ∅ (registry_with bound7 16))
    = Some RegEmplaced.
Proof. repeat split; vm_compute; reflexivity. Qed.

(* ===================================================================== *)
(** ** Further properties of the registry *)

(** *** Allocation and lookup *)

(** X1. On a registry whose stored pointers hold objects, [getEvent] answers
    a node name that reads "module" as a C string (up to its first NUL), in
    any letter case, with a new object at an address that held none and
    that no opcode refers to, of kind none, not loaded and referring to the
    runtime of the registry; the map and the objects that existed are as
    before. Any other name gives the null pointer and leaves the state
    alone. *)
Theorem getEvent_makes_a_fresh_record (nodeName : string) (s : State) :
  registry_closed s →
  if strcasecmp_eq nodeName "module" then
    ∃ p,
      heap s !! p = None
      ∧ unstored p s
      ∧ Modules_getEvent nodeName s
        = Some (Some p,
                with_heap (<[p := Module_new (Some modulesInterface)]> (heap s)) s)
      ∧ type (Module_new (Some modulesInterface)) = MODULE_TYPE_NONE
      ∧ loaded (Module_new (Some modulesInterface)) = false
  else Modules_getEvent nodeName s = Some (None, s).
Proof.
  intros Hcl. unfold Modules_getEvent.
  destruct (strcasecmp_eq nodeName "module"); simpl; [|done].
  exists (fresh (dom (heap s))).
  assert (Hfresh : heap s !! fresh (dom (heap s)) = None)
    by apply not_elem_of_dom, is_fresh.
  split; [done|]. split; [|done].
  intros k q Hk ->. destruct (Hcl k _ Hk) as [_ Hs].
  rewrite Hfresh in Hs. by destruct Hs.
Qed.

(** The name is "Module", a NUL and "x": [strcasecmp] reads "Module". *)
Lemma getEvent_makes_a_fresh_record_witness :
  ∃ p,
    heap (registry_with bound7 16) !! p = None
    ∧ unstored p (registry_with bound7 16)
    ∧ Modules_getEvent module_nul_x (registry_with bound7 16)
      = Some (Some p,
              with_heap (<[p := Module_new (Some modulesInterface)]>
                           (heap (registry_with bound7 16)))
                (registry_with bound7 16))
    ∧ type (Module_new (Some modulesInterface)) = MODULE_TYPE_NONE
    ∧ loaded (Module_new (Some modulesInterface)) = false.
Proof.
  apply (getEvent_makes_a_fresh_record module_nul_x (registry_with bound7 16)).
  apply (bool_decide_unpack _). vm_compute. exact I.
Defined.

(** Names that [getEvent] accepts and names that it refuses. *)
Example getEvent_names :
  strcasecmp_eq "MODULE" "module" = true
  ∧ strcasecmp_eq module_nul_x "module" = true
  ∧ strcasecmp_eq "modules" "module" = false
  ∧ strcasecmp_eq "" "module" = false
  ∧ Modules_getEvent "modules" (world 16) = Some (None, world 16).
Proof. repeat split; vm_compute; reflexivity. Qed.

Lemma getEventByRecvbyte_absent rb force s :
  recvbyteList s !! rb = None →
  Modules_getEventByRecvbyte rb force s = Some (None, s).
Proof.
  intros Hr. unfold Modules_getEventByRecvbyte, bind, gets, ret. simpl.
  by rewrite Hr.
Qed.

(** X2. Registering a configured record whose opcode is absent from the map
    returns true without logging; the map gains that opcode with the
    pointer given and keeps every other opcode, and no object is written.
    The lookup of the opcode then returns the pointer, and the lookup with
    [force] set returns it exactly when the record is loaded. *)
Theorem register_then_lookup (s : State) (p : positive) (m : ModuleObj)
    (node : xml_node) :
  heap s !! p = Some m →
  type m = MODULE_TYPE_RECVBYTE →
  recvbyteList s !! recvbyte m = None →
  ∃ s',
    Modules_registerEvent p node s = Some (true, s')
    ∧ s' = with_recvbyteList (<[recvbyte m := p]> (recvbyteList s)) s
    ∧ (∀ k, k ≠ recvbyte m → recvbyteList s' !! k = recvbyteList s !! k)
    ∧ Modules_getEventByRecvbyte (recvbyte m) false s' = Some (Some p, s')
    ∧ Modules_getEventByRecvbyte (recvbyte m) true s'
      = Some (if loaded m then Some p else None, s').
Proof.
  intros Hm Hty Habs.
  exists (with_recvbyteList (<[recvbyte m := p]> (recvbyteList s)) s).
  split.
  { rewrite (registerEvent_unfold _ _ _ m) by done.
    unfold register_outcome. by rewrite Hty, Habs. }
  split; [done|]. split.
  { intros k Hk. simpl. by rewrite lookup_insert_ne. }
  split.
  - rewrite getEventByRecvbyte_unforced. simpl. by rewrite lookup_insert_eq.
  - apply (getEventByRecvbyte_forced _ _ p m); simpl; [|done].
    by rewrite lookup_insert_eq.
Qed.

Lemma register_then_lookup_witness :
  ∃ s',
    Modules_registerEvent 2 [] (empty_registry 16) = Some (true, s')
    ∧ s' = with_recvbyteList (<[recvbyte bound7 := 2%positive]>
                                (recvbyteList (empty_registry 16)))
             (empty_registry 16)
    ∧ (∀ k, k ≠ recvbyte bound7 →
         recvbyteList s' !! k = recvbyteList (empty_registry 16) !! k)
    ∧ Modules_getEventByRecvbyte (recvbyte bound7) false s'
      = Some (Some 2%positive, s')
    ∧ Modules_getEventByRecvbyte (recvbyte bound7) true s'
      = Some (if loaded bound7 then Some 2%positive else None, s').
Proof.
  apply (register_then_lookup (empty_registry 16) 2 bound7 []); reflexivity.
Defined.

(** *** Clearing and reloading *)

(** The heap after [clear], object by object. *)
Lemma Modules_clear_lookup s :
  registry_closed s →
  ∃ h', Modules_clear s
        = Some (tt, with_luaInterface (reInitState (luaInterface s))
                      (with_heap h' s))
        ∧ ∀ q, h' !! q
               = if decide (q ∈ (recvbyte_entries (recvbyteList s)).*2)
                 then Module_clearEvent <$> heap s !! q
                 else heap s !! q.
Proof.
  intros Hcl.
  destruct (clear_loop_spec (recvbyte_entries (recvbyteList s)) s)
    as (h' & Hrun & Hh').
  { intros [k p] He. apply elem_of_recvbyte_entries in He as [Hr _].
    by apply (Hcl k p). }
  exists h'. split; [|done].
  unfold Modules_clear, bind, gets, modify. by rewrite Hrun.
Qed.

Lemma stored_in_entries s k p :
  registry_closed s → recvbyteList s !! k = Some p →
  p ∈ (recvbyte_entries (recvbyteList s)).*2.
Proof.
  intros Hcl Hk. apply list_elem_of_fmap. exists (k, p). split; [done|].
  apply elem_of_recvbyte_entries. split; [done|]. by apply (Hcl k p).
Qed.

Lemma unstored_not_in_entries s q :
  unstored q s → q ∉ (recvbyte_entries (recvbyteList s)).*2.
Proof.
  intros Hun ([k p] & -> & He)%list_elem_of_fmap.
  apply elem_of_recvbyte_entries in He as [Hr _]. by apply (Hun k p).
Qed.

(** X3. After [clear] the lookup with [force] set finds nothing at any
    opcode, while the lookup without it returns for every opcode the pointer
    that was stored before. *)
Theorem lookup_after_clear (s : State) :
  registry_closed s →
  ∃ s',
    Modules_clear s = Some (tt, s')
    ∧ ∀ k,
        Modules_getEventByRecvbyte k true s' = Some (None, s')
        ∧ Modules_getEventByRecvbyte k false s'
          = Some (recvbyteList s !! k, s').
Proof.
  intros Hcl.
  destruct (Modules_clear_lookup s Hcl) as (h' & Hrun & Hh').
  eexists. split; [exact Hrun|]. intros k. split.
  - destruct (recvbyteList s !! k) as [p|] eqn:Hk.
    + destruct (Hcl k p Hk) as [_ [m Hm]].
      rewrite (getEventByRecvbyte_forced _ _ p (Module_clearEvent m)); [done|done|].
      simpl. rewrite Hh', decide_True by by eapply stored_in_entries.
      by rewrite Hm.
    + by apply getEventByRecvbyte_absent.
  - by rewrite getEventByRecvbyte_unforced.
Qed.

Lemma lookup_after_clear_witness :
  ∃ s',
    Modules_clear (registry_with bound7 16) = Some (tt, s')
    ∧ ∀ k,
        Modules_getEventByRecvbyte k true s' = Some (None, s')
        ∧ Modules_getEventByRecvbyte k false s'
          = Some (recvbyteList (registry_with bound7 16) !! k, s').
Proof.
  apply (lookup_after_clear (registry_with bound7 16)).
  apply (bool_decide_unpack _). vm_compute. exact I.
Defined.

(** X4. Reload: after [clear], registering a configured record that is not
    itself stored, for an opcode that is stored, returns true; the map is
    as it was before the clear, the stored object has the script id, runtime
    reference, [scripted] and [loaded] of the new record and its own opcode,
    kind and delay, and the new record is unchanged. *)
Theorem clear_then_register_rebinds (s : State) (k : Z) (p0 p1 : positive)
    (m0 m1 : ModuleObj) (node : xml_node) :
  registry_closed s →
  recvbyteList s !! k = Some p0 →
  heap s !! p0 = Some m0 →
  type m0 = MODULE_TYPE_RECVBYTE →
  heap s !! p1 = Some m1 →
  unstored p1 s →
  recvbyte m1 = k →
  type m1 = MODULE_TYPE_RECVBYTE →
  ∃ s1 s2 m0',
    Modules_clear s = Some (tt, s1)
    ∧ Modules_registerEvent p1 node s1 = Some (true, s2)
    ∧ recvbyteList s2 = recvbyteList s
    ∧ heap s2 !! p0 = Some m0'
    ∧ scriptId m0' = scriptId m1
    ∧ scriptInterface m0' = scriptInterface m1
    ∧ scripted m0' = scripted m1
    ∧ loaded m0' = loaded m1
    ∧ recvbyte m0' = recvbyte m0
    ∧ type m0' = type m0
    ∧ delay m0' = delay m0
    ∧ heap s2 !! p1 = Some m1.
Proof.
  intros Hcl Hk H0 Ht0 H1 Hun Hb1 Ht1.
  destruct (Modules_clear_lookup s Hcl) as (h' & Hrun & Hh').
  assert (Hh0 : h' !! p0 = Some (Module_clearEvent m0)).
  { rewrite Hh', decide_True by by eapply stored_in_entries. by rewrite H0. }
  assert (Hh1 : h' !! p1 = Some m1).
  { rewrite Hh', decide_False by by apply unstored_not_in_entries. done. }
  assert (Hne : p1 ≠ p0).
  { intros ->. by apply (Hun k p0). }
  set (s1 := with_luaInterface (reInitState (luaInterface s)) (with_heap h' s)).
  exists s1,
    (with_heap (<[p0 := Module_copyEvent m1 (Module_clearEvent m0)]> h') s1),
    (Module_copyEvent m1 (Module_clearEvent m0)).
  split; [exact Hrun|]. split.
  { rewrite (registerEvent_unfold _ _ _ m1) by done.
    unfold register_outcome. rewrite Ht1, Hb1. simpl.
    rewrite Hk, Hh0. simpl. by rewrite Ht0. }
  simpl. rewrite lookup_insert_eq, lookup_insert_ne by done.
  by repeat split.
Qed.

Lemma clear_then_register_rebinds_witness :
  ∃ s1 s2 m0',
    Modules_clear (registry_with placeholder7 16) = Some (tt, s1)
    ∧ Modules_registerEvent 2 [] s1 = Some (true, s2)
    ∧ recvbyteList s2 = recvbyteList (registry_with placeholder7 16)
    ∧ heap s2 !! 1%positive = Some m0'
    ∧ scriptId m0' = scriptId bound7
    ∧ scriptInterface m0' = scriptInterface bound7
    ∧ scripted m0' = scripted bound7
    ∧ loaded m0' = loaded bound7
    ∧ recvbyte m0' = recvbyte placeholder7
    ∧ type m0' = type placeholder7
    ∧ delay m0' = delay placeholder7
    ∧ heap s2 !! 2%positive = Some bound7.
Proof.
  apply (clear_then_register_rebinds (registry_with placeholder7 16) 7 1 2
           placeholder7 bound7 []); try reflexivity.
  - apply (bool_decide_unpack _). vm_compute. exact I.
  - apply (bool_decide_unpack _). vm_compute. exact I.
Defined.

(** X5. [clear] is idempotent on the records: a second [clear] returns as
    well and leaves every object, the map, the players, the log and the
    calls as the first left them; only the runtime is reinitialised once
    more. *)
Theorem clear_twice (s : State) :
  registry_closed s →
  ∃ s1 s2,
    Modules_clear s = Some (tt, s1)
    ∧ Modules_clear s1 = Some (tt, s2)
    ∧ s2 = with_luaInterface (reInitState (luaInterface s1)) s1.
Proof.
  intros Hcl.
  destruct (Modules_clear_lookup s Hcl) as (h1 & Hrun1 & Hh1).
  set (s1 := with_luaInterface (reInitState (luaInterface s)) (with_heap h1 s)).
  assert (Hcl1 : registry_closed s1).
  { intros k p Hk. destruct (Hcl k p Hk) as [Hu [m Hm]]. split; [done|].
    simpl. rewrite Hh1, Hm. case_decide; eauto. }
  destruct (Modules_clear_lookup s1 Hcl1) as (h2 & Hrun2 & Hh2).
  exists s1. eexists. split; [exact Hrun1|]. split; [exact Hrun2|].
  assert (h2 = h1) as ->; [|done].
  apply map_eq. intros q. rewrite Hh2. simpl. rewrite Hh1.
  case_decide; [|done]. by destruct (heap s !! q).
Qed.

Lemma clear_twice_witness :
  ∃ s1 s2,
    Modules_clear (registry_with bound7 16) = Some (tt, s1)
    ∧ Modules_clear s1 = Some (tt, s2)
    ∧ s2 = with_luaInterface (reInitState (luaInterface s1)) s1.
Proof.
  apply (clear_twice (registry_with bound7 16)).
  apply (bool_decide_unpack _). vm_compute. exact I.
Defined.

(** X6. [clear] writes only the stored records and the runtime: an object
    that no opcode refers to keeps all its fields, its runtime reference
    included, and the players, the free script environments and the
    recorded calls are as before. *)
Theorem clear_leaves_the_rest (s : State) :
  registry_closed s →
  ∃ s',
    Modules_clear s = Some (tt, s')
    ∧ players s' = players s
    ∧ scriptEnvFree s' = scriptEnvFree s
    ∧ calls s' = calls s
    ∧ ∀ q, unstored q s → heap s' !! q = heap s !! q.
Proof.
  intros Hcl.
  destruct (Modules_clear_lookup s Hcl) as (h' & Hrun & Hh').
  eexists. split; [exact Hrun|]. simpl. do 3 (split; [done|]).
  intros q Hq. rewrite Hh'.
  by rewrite decide_False by by apply unstored_not_in_entries.
Qed.

Lemma clear_leaves_the_rest_witness :
  ∃ s',
    Modules_clear (registry_with bound7 16) = Some (tt, s')
    ∧ players s' = players (registry_with bound7 16)
    ∧ scriptEnvFree s' = scriptEnvFree (registry_with bound7 16)
    ∧ calls s' = calls (registry_with bound7 16)
    ∧ ∀ q, unstored q (registry_with bound7 16) →
        heap s' !! q = heap (registry_with bound7 16) !! q.
Proof.
  apply (clear_leaves_the_rest (registry_with bound7 16)).
  apply (bool_decide_unpack _). vm_compute. exact I.
Defined.

(** *** Invariants of reachable registries *)

(** X7. In every state reached from a new registry, every opcode of the map
    is within 0..255 and refers to an object of kind on-receive-byte whose
    own opcode is within 0..255: a record of kind none is never stored. *)
Theorem stored_records_are_typed (as_int as_uint : string → Z)
    (ps : gmap Z Player) (envs : nat) (os : list Op) (s : State)
    (k : Z) (p : positive) :
  run_ops as_int as_uint os (Modules_new ps envs) = Some (tt, s) →
  recvbyteList s !! k = Some p →
  is_uint8 k
  ∧ ∃ m, heap s !! p = Some m
         ∧ type m = MODULE_TYPE_RECVBYTE
         ∧ is_uint8 (recvbyte m).
Proof.
  intros Hrun Hk.
  pose proof (run_ops_ok _ _ _ _ _ (Modules_new_ok ps envs) Hrun)
    as (Hcl & Hobj & Hty).
  destruct (Hcl k p Hk) as [Hu [m Hm]]. split; [done|].
  exists m. split; [done|]. split; [by eapply (Hty k)|].
  by destruct (Hobj p m Hm) as (Hb & _).
Qed.

Lemma stored_records_are_typed_witness :
  ∃ s,
    run_ops read_decimal read_decimal
      (load node_untyped 1 ++ load node263 2 ++ [OpClear]) (world 16)
    = Some (tt, s)
    ∧ recvbyteList s !! 7 = Some 2%positive
    ∧ is_uint8 7
    ∧ ∃ m, heap s !! 2%positive = Some m
           ∧ type m = MODULE_TYPE_RECVBYTE
           ∧ is_uint8 (recvbyte m).
Proof.
  eexists.
  split; [vm_compute; reflexivity|].
  split; [vm_compute; reflexivity|].
  eapply (stored_records_are_typed read_decimal read_decimal
            {[ 42 := alice ]} 16%nat
            (load node_untyped 1 ++ load node263 2 ++ [OpClear])).
  - vm_compute. reflexivity.
  - vm_compute. reflexivity.
Defined.

Section KeyedRuns.

Variable as_int : string → Z.
Variable as_uint : string → Z.

Lemma unstored_respects s p node :
  unstored p s → op_respects_keys s (OpConfigure p node).
Proof. intros Hun k Hk. by apply (Hun k p). Qed.

Lemma run_ops_keyed os : ∀ s s',
  state_ok s → registry_keyed s →
  configures_before_registering as_int as_uint os s = true →
  run_ops as_int as_uint os s = Some (tt, s') →
  registry_keyed s'.
Proof.
  induction os as [|o os IH]; intros s s' Hok Hkey; simpl.
  - by intros _ [= <-].
  - intros [Ho Hrest]%andb_true_iff. unfold bind.
    destruct (run_op as_int as_uint o s) as [[[] s1]|] eqn:Hop; [|done].
    intros Hrun. apply (IH s1); try done.
    + by eapply run_op_ok.
    + eapply run_op_keyed; [apply Hok|done| |done].
      destruct o; try done.
      apply unstored_respects. by apply bool_decide_eq_true in Ho.
Qed.

End KeyedRuns.

(** X8. In every state reached from a new registry by a run that configures
    only records that are not stored at the time, every stored record has
    the opcode it is stored under. *)
Theorem records_stay_under_their_opcode (as_int as_uint : string → Z)
    (ps : gmap Z Player) (envs : nat) (os : list Op) (s : State)
    (k : Z) (p : positive) (m : ModuleObj) :
  configures_before_registering as_int as_uint os (Modules_new ps envs) = true →
  run_ops as_int as_uint os (Modules_new ps envs) = Some (tt, s) →
  recvbyteList s !! k = Some p →
  heap s !! p = Some m →
  recvbyte m = k.
Proof.
  intros Hresp Hrun Hk Hm.
  eapply registry_keyed_lookup; [|done..].
  eapply run_ops_keyed; [apply Modules_new_ok| |done..].
  intros k' p'. simpl. by rewrite lookup_empty.
Qed.

Lemma records_stay_under_their_opcode_witness :
  ∃ s m,
    run_ops read_decimal read_decimal
      (load node263 1 ++ [OpClear] ++ load node7 2) (world 16) = Some (tt, s)
    ∧ heap s !! 1%positive = Some m
    ∧ recvbyte m = 7.
Proof.
  eexists. eexists.
  split; [vm_compute; reflexivity|].
  split; [vm_compute; reflexivity|].
  eapply (records_stay_under_their_opcode read_decimal read_decimal
            {[ 42 := alice ]} 16%nat
            (load node263 1 ++ [OpClear] ++ load node7 2) _ 7 1%positive).
  - vm_compute. reflexivity.
  - vm_compute. reflexivity.
  - vm_compute. reflexivity.
  - vm_compute. reflexivity.
Defined.

(** *** Dispatch, outcome by outcome *)

(** The state after the throttle of [playerId] is armed for [m]. *)
Lemma fire_outcome now playerId msg p m s s' player :
  players s !! playerId = Some player → heap s !! p = Some m →
  fire now playerId msg p m s = Some (tt, s') →
  let s1 := with_players
              (<[playerId := setModuleDelay now (recvbyte m) (delay m) player]>
                 (players s)) s in
  (scriptEnvFree s = 0%nat
   ∧ s' = with_logger (logger s ++ [overflow_line player]) s1)
  ∨ (∃ n i, scriptEnvFree s = S n ∧ scriptInterface m = Some i
            ∧ s' = with_calls
                     (calls s ++ [{| call_scriptId := scriptId m;
                                     call_interface := i;
                                     call_player := playerId;
                                     call_msg := msg;
                                     call_byte := recvbyte m |}]) s1).
Proof.
  intros Hpl Hm. unfold fire, bind at 1.
  unfold updatePlayer, bind, derefPlayer, modify. rewrite Hpl.
  set (player' := setModuleDelay now (recvbyte m) (delay m) player).
  set (s1 := with_players (<[playerId := player']> (players s)) s).
  assert (Hpl1 : players s1 !! playerId = Some player')
    by apply lookup_insert_eq.
  destruct (scriptEnvFree s) as [|n] eqn:He.
  - rewrite (bridge_exhausted p playerId msg s1 player') by done.
    intros [= <-]. by left.
  - destruct (scriptInterface m) as [i|] eqn:Hi.
    + rewrite (bridge_calls p playerId msg s1 m i n) by done.
      intros [= <-]. right. by exists n, i.
    + by rewrite (bridge_null_runtime p playerId msg s1 m n).
Qed.

(** The loop either falls through, leaving the state alone, or fires on
    one record that the condition selects. *)
Lemma loop_outcome now playerId msg byte es : ∀ s s',
  executeOnRecvbyte_loop now playerId msg byte es s = Some (tt, s') →
  s' = s
  ∨ ∃ k p m player,
      (k, p) ∈ es ∧ heap s !! p = Some m
      ∧ players s !! playerId = Some player
      ∧ selects now byte player m = true
      ∧ fire now playerId msg p m s = Some (tt, s').
Proof.
  induction es as [|[k p] es IH]; intros s s'.
  - intros [= <-]. by left.
  - destruct (heap s !! p) as [m|] eqn:Hm;
      [|by simpl; unfold bind, deref; rewrite Hm].
    destruct (players s !! playerId) as [player|] eqn:Hpl;
      [|by simpl; unfold bind, deref, derefPlayer; rewrite Hm, Hpl].
    rewrite (loop_cons _ _ _ _ _ _ _ _ m player) by done.
    destruct (selects now byte player m) eqn:Hsel.
    + intros Hf. right. exists k, p, m, player.
      split; [left|done].
    + intros Hl.
      destruct (IH s s' Hl) as [-> | (k' & p' & m' & pl' & Hin & Hrest)];
        [by left|].
      right. exists k', p', m', pl'. split; [by right|].
      by rewrite Hpl in Hrest.
Qed.

Lemma dispatch_outcome now playerId msg byte s s' :
  Modules_executeOnRecvbyte now playerId msg byte s = Some (tt, s') →
  s' = s
  ∨ ∃ k p m player,
      recvbyteList s !! k = Some p ∧ heap s !! p = Some m
      ∧ players s !! playerId = Some player
      ∧ selects now byte player m = true
      ∧ fire now playerId msg p m s = Some (tt, s').
Proof.
  unfold Modules_executeOnRecvbyte, bind, getPlayerByID, gets.
  destruct (players s !! playerId) as [pl0|] eqn:Hpl0;
    [|intros [= <-]; by left].
  intros Hl.
  apply loop_outcome in Hl as [-> | (k & p & m & pl & Hin & Hrest)];
    [by left|].
  rewrite Hpl0 in Hrest.
  right. exists k, p, m, pl. split; [|exact Hrest].
  by apply elem_of_recvbyte_entries in Hin as [? _].
Qed.

(** X9. On a registry whose stored pointers hold objects, when the player
    exists with a permitting throttle, a script environment is free, some
    stored record has kind on-receive-byte and the opcode of the message,
    and every stored record with that opcode refers to a runtime, the
    dispatch returns and the script of such a record is entered: the first
    call recorded after those already made carries the script id and the
    runtime of that record, the player, the message and the opcode. What
    the script does after it is entered is not described. *)
Theorem dispatch_calls_the_script (now playerId : Z) (msg : NetworkMessage)
    (byte : Z) (s : State) (k : Z) (p : positive) (m : ModuleObj)
    (player : Player) (n : nat) :
  registry_closed s →
  players s !! playerId = Some player →
  recvbyteList s !! k = Some p →
  heap s !! p = Some m →
  type m = MODULE_TYPE_RECVBYTE →
  recvbyte m = byte →
  throttle_permits now byte player →
  scriptEnvFree s = S n →
  records_for_opcode_have_runtime byte s →
  ∃ s' k' p' m' i later,
    recvbyteList s !! k' = Some p'
    ∧ heap s !! p' = Some m'
    ∧ type m' = MODULE_TYPE_RECVBYTE
    ∧ recvbyte m' = byte
    ∧ scriptInterface m' = Some i
    ∧ Modules_executeOnRecvbyte now playerId msg byte s = Some (tt, s')
    ∧ calls s'
      = calls s ++ {| call_scriptId := scriptId m'; call_interface := i;
                      call_player := playerId; call_msg := msg;
                      call_byte := byte |} :: later.
Proof.
  intros Hcl Hpl Hk Hm Hty Hb Hcan He Hrt.
  destruct (dispatch_selects now playerId msg byte s player Hcl Hpl)
    as (k' & p' & m' & Hk' & Hm' & Hsel' & Hrun).
  { exists k, p, m. do 2 (split; [done|]). by apply selects_intro. }
  apply selects_true in Hsel' as (Hty' & Hb' & _).
  pose proof (Hrt k' p' Hk') as Hi. simpl in Hi. rewrite Hm' in Hi.
  destruct (Hi Hb') as [i Hi'].
  eexists _, k', p', m', i, []. do 5 (split; [done|]).
  rewrite Hrun. unfold fire, bind at 1.
  unfold updatePlayer, bind, derefPlayer, modify. rewrite Hpl.
  rewrite (bridge_calls p' playerId msg _ m' i n) by done.
  split; [done|]. simpl. by rewrite Hb'.
Qed.

(** The record stored under opcode 7 has opcode 9 as its own and a script:
    a message with opcode 9 enters that script. *)
Lemma dispatch_calls_the_script_witness :
  ∃ s' k' p' m' i later,
    recvbyteList (registry_with bound9 16) !! k' = Some p'
    ∧ heap (registry_with bound9 16) !! p' = Some m'
    ∧ type m' = MODULE_TYPE_RECVBYTE
    ∧ recvbyte m' = 9
    ∧ scriptInterface m' = Some i
    ∧ Modules_executeOnRecvbyte 0 42 [] 9 (registry_with bound9 16)
      = Some (tt, s')
    ∧ calls s'
      = calls (registry_with bound9 16)
        ++ {| call_scriptId := scriptId m'; call_interface := i;
              call_player := 42; call_msg := []; call_byte := 9 |} :: later.
Proof.
  apply (dispatch_calls_the_script 0 42 [] 9 (registry_with bound9 16) 7 1
           bound9 alice 15).
  - apply (bool_decide_unpack _). vm_compute. exact I.
  - reflexivity.
  - reflexivity.
  - reflexivity.
  - reflexivity.
  - reflexivity.
  - reflexivity.
  - reflexivity.
  - apply (bool_decide_unpack _). vm_compute. exact I.
Defined.

(** X11. On a registry whose stored pointers hold objects, a dispatch
    changes nothing at all (no call, no log line, no throttle time) when
    the player id resolves to no player, when no stored record has the
    opcode of the message as its own opcode, or when the throttle of the
    player refuses the opcode. *)
Theorem dispatch_without_effect (now playerId : Z) (msg : NetworkMessage)
    (byte : Z) (s : State) :
  registry_closed s →
  players s !! playerId = None
  ∨ no_record_has_opcode byte s
  ∨ (∃ player, players s !! playerId = Some player
               ∧ canRunModule now byte player = false) →
  Modules_executeOnRecvbyte now playerId msg byte s = Some (tt, s).
Proof.
  intros Hcl Hcase.
  destruct (players s !! playerId) as [player|] eqn:Hpl.
  - apply (dispatch_falls_through _ _ _ _ _ player); [done..|].
    intros k p m Hk Hm. unfold selects.
    destruct Hcase as [? | [Hno | (player' & [= <-] & Hc)]]; [done| |].
    + specialize (Hno k p Hk). simpl in Hno. rewrite Hm in Hno.
      apply Z.eqb_neq in Hno. rewrite Hno. by rewrite andb_false_r.
    + destruct (recvbyte m =? byte) eqn:Hb.
      * apply Z.eqb_eq in Hb. rewrite Hb, Hc. by rewrite andb_false_r.
      * by rewrite andb_false_r.
  - unfold Modules_executeOnRecvbyte, bind, getPlayerByID, gets.
    by rewrite Hpl.
Qed.

(** Key 9 is absent, yet the record under key 7 has opcode 9: what counts
    is that no stored record has opcode 11. *)
Lemma dispatch_without_effect_witness :
  Modules_executeOnRecvbyte 0 42 [] 11 (registry_with bound9 16)
  = Some (tt, registry_with bound9 16).
Proof.
  apply (dispatch_without_effect 0 42 [] 11 (registry_with bound9 16)).
  - apply (bool_decide_unpack _). vm_compute. exact I.
  - right. left. apply (bool_decide_unpack _). vm_compute. exact I.
Defined.

(** X10. On a registry whose stored pointers hold objects, once a dispatch
    has selected a stored record (of kind on-receive-byte, with the opcode
    of the message) and returned, a further message with that opcode from
    the same player, at any time before the time of the first plus the
    delay of the selected record, is not dispatched: it leaves the state as
    it is. *)
Theorem dispatch_throttles_the_next_message (now playerId : Z)
    (msg msg' : NetworkMessage) (byte : Z) (s s' : State) (k : Z)
    (p : positive) (m : ModuleObj) (player : Player) :
  registry_closed s →
  players s !! playerId = Some player →
  recvbyteList s !! k = Some p →
  heap s !! p = Some m →
  type m = MODULE_TYPE_RECVBYTE →
  recvbyte m = byte →
  throttle_permits now byte player →
  Modules_executeOnRecvbyte now playerId msg byte s = Some (tt, s') →
  ∃ k' p' m',
    recvbyteList s !! k' = Some p'
    ∧ heap s !! p' = Some m'
    ∧ type m' = MODULE_TYPE_RECVBYTE
    ∧ recvbyte m' = byte
    ∧ ∀ t, t < now + delay m' →
        Modules_executeOnRecvbyte t playerId msg' byte s' = Some (tt, s').
Proof.
  intros Hcl Hpl Hk Hm Hty Hb Hcan Hrun.
  destruct (dispatch_selects now playerId msg byte s player Hcl Hpl)
    as (k' & p' & m' & Hk' & Hm' & Hsel' & Heq).
  { exists k, p, m. do 2 (split; [done|]). by apply selects_intro. }
  apply selects_true in Hsel' as (Hty' & Hb' & _).
  exists k', p', m'. do 4 (split; [done|]).
  rewrite Heq in Hrun.
  apply (fire_outcome _ _ _ _ _ _ _ player) in Hrun; [|done..].
  rewrite Hb' in Hrun.
  assert (Hs' : heap s' = heap s ∧ recvbyteList s' = recvbyteList s
                ∧ players s' !! playerId
                  = Some (setModuleDelay now byte (delay m') player)).
  { destruct Hrun as [[_ ->] | (n & i & _ & _ & ->)]; simpl;
      by rewrite lookup_insert_eq. }
  destruct Hs' as (Hh & Hr & Hp').
  intros t Ht.
  apply (dispatch_falls_through _ _ _ _ _
           (setModuleDelay now byte (delay m') player)); [|done|].
  - unfold registry_closed. by rewrite Hr, Hh.
  - intros k1 p1 m1 _ _. unfold selects.
    destruct (recvbyte m1 =? byte) eqn:Hb1.
    + apply Z.eqb_eq in Hb1.
      rewrite Hb1, setModuleDelay_blocks by done. by rewrite andb_false_r.
    + by rewrite andb_false_r.
Qed.

Lemma dispatch_throttles_the_next_message_witness :
  ∃ s',
    Modules_executeOnRecvbyte 0 42 [] 9 (registry_with bound9 16)
    = Some (tt, s')
    ∧ ∃ k' p' m',
        recvbyteList (registry_with bound9 16) !! k' = Some p'
        ∧ heap (registry_with bound9 16) !! p' = Some m'
        ∧ type m' = MODULE_TYPE_RECVBYTE
        ∧ recvbyte m' = 9
        ∧ ∀ t, t < 0 + delay m' →
            Modules_executeOnRecvbyte t 42 [] 9 s' = Some (tt, s').
Proof.
  eexists. split; [vm_compute; reflexivity|].
  apply (dispatch_throttles_the_next_message 0 42 [] [] 9
           (registry_with bound9 16) _ 7 1 bound9 alice).
  - apply (bool_decide_unpack _). vm_compute. exact I.
  - reflexivity.
  - reflexivity.
  - reflexivity.
  - reflexivity.
  - reflexivity.
  - reflexivity.
  - vm_compute. reflexivity.
Defined.

(** X12. Whatever the state, a dispatch that returns has written no record,
    no entry of the map and not the runtime; it has left every other player
    as it was, and as many script environments are free as before. *)
Theorem dispatch_writes_only_the_player (now playerId : Z)
    (msg : NetworkMessage) (byte : Z) (s s' : State) :
  Modules_executeOnRecvbyte now playerId msg byte s = Some (tt, s') →
  heap s' = heap s
  ∧ recvbyteList s' = recvbyteList s
  ∧ luaInterface s' = luaInterface s
  ∧ scriptEnvFree s' = scriptEnvFree s
  ∧ ∀ q, q ≠ playerId → players s' !! q = players s !! q.
Proof.
  intros Hrun.
  apply dispatch_outcome in Hrun
    as [-> | (k & p & m & player & _ & Hm & Hpl & _ & Hf)]; [done|].
  apply (fire_outcome _ _ _ _ _ _ _ player) in Hf; [|done..].
  destruct Hf as [[_ ->] | (n & i & _ & _ & ->)]; simpl;
    (do 4 (split; [done|])); intros q Hq; by rewrite lookup_insert_ne.
Qed.

Lemma dispatch_writes_only_the_player_witness :
  ∃ s',
    Modules_executeOnRecvbyte 0 42 [] 7 (registry_with bound7 16)
    = Some (tt, s')
    ∧ heap s' = heap (registry_with bound7 16)
    ∧ recvbyteList s' = recvbyteList (registry_with bound7 16)
    ∧ luaInterface s' = luaInterface (registry_with bound7 16)
    ∧ scriptEnvFree s' = scriptEnvFree (registry_with bound7 16)
    ∧ ∀ q, q ≠ 42 →
        players s' !! q = players (registry_with bound7 16) !! q.
Proof.
  eexists. split; [vm_compute; reflexivity|].
  apply (dispatch_writes_only_the_player 0 42 [] 7 (registry_with bound7 16)).
  vm_compute. reflexivity.
Defined.

(** X14. On a registry whose stored pointers hold objects and whose records
    are stored under their own opcodes, a dispatch fails to return exactly
    when the player exists, the record stored at the opcode has kind
    on-receive-byte, the throttle permits, a script environment is free and
    the record has no runtime: then the bridge calls through the null
    pointer. In every other case it returns. *)
Theorem dispatch_faults_exactly_on_null_runtime (now playerId : Z)
    (msg : NetworkMessage) (byte : Z) (s : State) :
  registry_closed s →
  registry_keyed s →
  Modules_executeOnRecvbyte now playerId msg byte s = None
  ↔ ∃ player p m n,
      players s !! playerId = Some player
      ∧ recvbyteList s !! byte = Some p
      ∧ heap s !! p = Some m
      ∧ type m = MODULE_TYPE_RECVBYTE
      ∧ canRunModule now byte player = true
      ∧ scriptEnvFree s = S n
      ∧ scriptInterface m = None.
Proof.
  intros Hcl Hkey. rewrite dispatch_is_direct by done.
  unfold dispatch_direct. split.
  - destruct (players s !! playerId) as [player|] eqn:Hpl; [|done].
    destruct (recvbyteList s !! byte) as [p|] eqn:Hk; [|done].
    destruct (Hcl byte p Hk) as [_ [m Hm]]. rewrite Hm.
    destruct (bool_decide (type m = MODULE_TYPE_RECVBYTE)) eqn:Hty; [|done].
    apply bool_decide_eq_true in Hty.
    destruct (canRunModule now byte player) eqn:Hc; [|done]. simpl.
    unfold fire, bind at 1. unfold updatePlayer, bind, derefPlayer, modify.
    rewrite Hpl.
    set (s1 := with_players _ s).
    destruct (scriptEnvFree s) as [|n] eqn:He.
    + by rewrite (bridge_exhausted p playerId msg s1 _ He
                    (lookup_insert_eq _ _ _)).
    + destruct (scriptInterface m) as [i|] eqn:Hi.
      * by rewrite (bridge_calls p playerId msg s1 m i n).
      * intros _. by exists player, p, m, n.
  - intros (player & p & m & n & Hpl & Hk & Hm & Hty & Hc & He & Hi).
    rewrite Hpl, Hk, Hm, Hty, Hc. simpl.
    unfold fire, bind at 1. unfold updatePlayer, bind, derefPlayer, modify.
    rewrite Hpl. by apply (bridge_null_runtime _ _ _ _ m n).
Qed.

Lemma dispatch_faults_exactly_on_null_runtime_witness :
  Modules_executeOnRecvbyte 0 42 [] 7 (registry_with placeholder7 16) = None
  ↔ ∃ player p m n,
      players (registry_with placeholder7 16) !! 42 = Some player
      ∧ recvbyteList (registry_with placeholder7 16) !! 7 = Some p
      ∧ heap (registry_with placeholder7 16) !! p = Some m
      ∧ type m = MODULE_TYPE_RECVBYTE
      ∧ canRunModule 0 7 player = true
      ∧ scriptEnvFree (registry_with placeholder7 16) = S n
      ∧ scriptInterface m = None.
Proof.
  apply (dispatch_faults_exactly_on_null_runtime 0 42 [] 7
           (registry_with placeholder7 16)).
  - apply (bool_decide_unpack _). vm_compute. exact I.
  - apply (bool_decide_unpack _). vm_compute. exact I.
Defined.

(** *** Configuration *)

Lemma configureEvent_fails_line as_int as_uint node m :
  config_fails node →
  Module_configureEvent as_int as_uint node m
  = (false, [configure_error node], set_delay 0 m).
Proof.
  unfold configure_error, Module_configureEvent.
  intros [Ht | [(a & Ht & Hne) | (a & Ht & Hl & Hb)]]; rewrite Ht.
  - done.
  - apply string_eqb_false in Hne. by rewrite Hne.
  - apply string_eqb_true in Hl. by rewrite Hl, Hb.
Qed.

(** X15. [configureEvent] has two outcomes. On a node without a type
    attribute, with a type other than "recvbyte" in any letter case, or of
    type "recvbyte" without a byte attribute, it returns false, logs the one
    line that names the defect, and changes the record only by setting its
    delay to 0. On every other node it returns true, logs nothing, and the
    record has kind on-receive-byte, is loaded, has as opcode the decoded
    byte attribute modulo 256 and as delay the wrapped delay attribute or
    0; its script id, runtime reference and [scripted] are untouched. *)
Theorem configureEvent_outcomes (as_int as_uint : string → Z)
    (node : xml_node) (m : ModuleObj) :
  (config_fails node
   ∧ Module_configureEvent as_int as_uint node m
     = (false, [configure_error node], set_delay 0 m))
  ∨ (∃ t b,
       attribute "type" node = Some t
       ∧ asLowerCaseString (as_string t) = "recvbyte"
       ∧ attribute "byte" node = Some b
       ∧ Module_configureEvent as_int as_uint node m
         = (true, [],
            {| type := MODULE_TYPE_RECVBYTE; loaded := true;
               recvbyte := to_uint8 (as_int (attr_text b));
               delay := match attribute "delay" node with
                        | Some d => to_int16 (as_uint (attr_text d))
                        | None => 0
                        end;
               scriptId := scriptId m;
               scriptInterface := scriptInterface m;
               scripted := scripted m |})
       ∧ is_uint8 (to_uint8 (as_int (attr_text b)))).
Proof.
  unfold config_fails, configure_error, Module_configureEvent.
  destruct (attribute "type" node) as [t|] eqn:Ht; [|left; split; [by left|done]].
  destruct (String.eqb _ _) eqn:Hl.
  - apply string_eqb_true in Hl.
    destruct (attribute "byte" node) as [b|] eqn:Hb.
    + right. exists t, b. do 3 (split; [done|]).
      split; [|apply to_uint8_range].
      by destruct (attribute "delay" node).
    + left. split; [|done]. right; right. by exists t.
  - apply string_eqb_false in Hl. left. split; [|done].
    right; left. by exists t.
Qed.

Lemma configureEvent_keeps_binding as_int as_uint node m :
  let m' := (Module_configureEvent as_int as_uint node m).2 in
  scriptId m' = scriptId m ∧ scriptInterface m' = scriptInterface m
  ∧ scripted m' = scripted m.
Proof.
  destruct (configureEvent_result as_int as_uint node m)
    as [Hf | (lines & m' & Hs)].
  - by destruct (configureEvent_fails as_int as_uint node m Hf) as [line ->].
  - rewrite Hs. simpl.
    by apply configureEvent_succeeds in Hs as (t & b & _ & _ & _ & _ & ->).
Qed.

(** X16. A successful configuration overwrites whatever an earlier
    configuration did: when [configureEvent] accepts a node, its result on a
    record that was configured from any other node before, accepted or not,
    is its result on the record as it was at first. *)
Theorem reconfiguration_overwrites (as_int as_uint : string → Z)
    (node node' : xml_node) (m : ModuleObj) :
  (Module_configureEvent as_int as_uint node m).1.1 = true →
  Module_configureEvent as_int as_uint node
    (Module_configureEvent as_int as_uint node' m).2
  = Module_configureEvent as_int as_uint node m.
Proof.
  intros Hok.
  pose proof (configureEvent_keeps_binding as_int as_uint node' m) as Hkeep.
  destruct (Module_configureEvent as_int as_uint node' m)
    as [[ok' lines'] m1].
  simpl in Hkeep. destruct Hkeep as (Hi & Hf & Hs). simpl.
  destruct (Module_configureEvent as_int as_uint node m)
    as [[ok lines] m2] eqn:Hc.
  simpl in Hok. subst ok.
  apply configureEvent_succeeds in Hc as (t & b & Ht & Hl & Hb & -> & ->).
  unfold Module_configureEvent. rewrite Ht.
  apply string_eqb_true in Hl. rewrite Hl, Hb.
  rewrite <- Hi, <- Hf, <- Hs.
  by destruct (attribute "delay" node).
Qed.

Lemma reconfiguration_overwrites_witness :
  Module_configureEvent read_decimal read_decimal node7
    (Module_configureEvent read_decimal read_decimal node9 unconfigured).2
  = Module_configureEvent read_decimal read_decimal node7 unconfigured.
Proof.
  apply (reconfiguration_overwrites read_decimal read_decimal node7 node9
           unconfigured).
  reflexivity.
Defined.

(** X17. A rejected node still costs a stored record its delay: when
    [configureEvent] is applied to the object stored at an opcode with a node
    it rejects, it returns false and logs the defect; the object stays
    stored under that opcode with its kind, opcode, [loaded], script id,
    runtime reference and [scripted] as before, and its delay is 0. *)
Theorem rejected_reconfiguration_zeroes_delay (as_int as_uint : string → Z)
    (s : State) (k : Z) (p : positive) (m : ModuleObj) (node : xml_node) :
  recvbyteList s !! k = Some p →
  heap s !! p = Some m →
  config_fails node →
  ∃ s' m',
    configureEvent_at as_int as_uint p node s = Some (false, s')
    ∧ logger s' = logger s ++ [configure_error node]
    ∧ recvbyteList s' = recvbyteList s
    ∧ heap s' !! p = Some m'
    ∧ delay m' = 0
    ∧ type m' = type m
    ∧ recvbyte m' = recvbyte m
    ∧ loaded m' = loaded m
    ∧ scriptId m' = scriptId m
    ∧ scriptInterface m' = scriptInterface m
    ∧ scripted m' = scripted m
    ∧ ∀ q, q ≠ p → heap s' !! q = heap s !! q.
Proof.
  intros Hk Hm Hf.
  pose proof (configureEvent_fails_line as_int as_uint node m Hf) as Hc.
  eexists. exists (set_delay 0 m). split.
  { rewrite (configureEvent_at_unfold _ _ _ _ _ m) by done.
    rewrite Hc. done. }
  simpl. rewrite lookup_insert_eq.
  do 10 (split; [done|]).
  intros q Hq. by rewrite lookup_insert_ne.
Qed.

Lemma rejected_reconfiguration_zeroes_delay_witness :
  ∃ s' m',
    configureEvent_at read_decimal read_decimal 1 node_untyped
      (registry_with bound7 16) = Some (false, s')
    ∧ logger s'
      = logger (registry_with bound7 16) ++ [configure_error node_untyped]
    ∧ recvbyteList s' = recvbyteList (registry_with bound7 16)
    ∧ heap s' !! 1%positive = Some m'
    ∧ delay m' = 0
    ∧ type m' = type bound7
    ∧ recvbyte m' = recvbyte bound7
    ∧ loaded m' = loaded bound7
    ∧ scriptId m' = scriptId bound7
    ∧ scriptInterface m' = scriptInterface bound7
    ∧ scripted m' = scripted bound7
    ∧ ∀ q, q ≠ 1%positive →
        heap s' !! q = heap (registry_with bound7 16) !! q.
Proof.
  apply (rejected_reconfiguration_zeroes_delay read_decimal read_decimal
           (registry_with bound7 16) 7 1 bound7 node_untyped);
    try reflexivity.
  left. reflexivity.
Defined.

(** *** Records without a runtime *)

Section Unloaded.

Variable as_int : string → Z.
Variable as_uint : string → Z.

Lemma run_op_unloaded o s s' :
  state_ok s →
  (∀ p m, heap s !! p = Some m → type m = MODULE_TYPE_RECVBYTE →
     loaded m = false → scriptInterface m = None) →
  run_op as_int as_uint o s = Some (tt, s') →
  ∀ p m, heap s' !! p = Some m → type m = MODULE_TYPE_RECVBYTE →
    loaded m = false → scriptInterface m = None.
Proof.
  intros (Hcl & _ & _) Hinv.
  destruct o as [nodeName|p0 node|p0 node| |now playerId msg byte]; simpl.
  - unfold bind.
    destruct (getEvent_result nodeName s) as [-> | (p0 & _ & ->)];
      intros [= <-]; [done|].
    intros p m. simpl. rewrite lookup_insert. case_decide.
    + by intros [= <-].
    + apply Hinv.
  - unfold bind. destruct (heap s !! p0) as [m0|] eqn:Hm0.
    + rewrite (configureEvent_at_unfold _ _ _ _ _ m0) by done.
      intros [= <-] p m. simpl. rewrite lookup_insert. case_decide.
      * intros [= <-].
        destruct (configureEvent_result as_int as_uint node m0)
          as [Hf | (lines & m' & Hs)].
        -- destruct (configureEvent_fails as_int as_uint node m0 Hf)
             as [line ->]. simpl. by apply (Hinv p0 m0).
        -- rewrite Hs. simpl.
           by apply configureEvent_succeeds in Hs
             as (t & b & _ & _ & _ & _ & ->).
      * apply Hinv.
    + unfold configureEvent_at, bind, deref. by rewrite Hm0.
  - unfold bind. destruct (heap s !! p0) as [m0|] eqn:Hm0.
    + rewrite (registerEvent_unfold _ _ _ m0) by done.
      unfold register_outcome.
      destruct (decide (type m0 = MODULE_TYPE_NONE)); [by intros [= <-]|].
      destruct (recvbyteList s !! recvbyte m0) as [old|] eqn:Hold;
        [|by intros [= <-]].
      destruct (heap s !! old) as [o|] eqn:Ho; [|done].
      destruct (negb (loaded o) && bool_decide (type o = type m0)) eqn:Hg;
        [|by intros [= <-]].
      apply andb_true_iff in Hg as [_ Heq%bool_decide_eq_true].
      intros [= <-] p m. simpl. rewrite lookup_insert. case_decide.
      * intros [= <-]. simpl. intros Hty Hl.
        apply (Hinv p0 m0); [done| |done]. by rewrite <- Heq.
      * apply Hinv.
    + unfold Modules_registerEvent, bind.
      by rewrite registerEvent_unallocated.
  - destruct (Modules_clear_spec s Hcl) as (h' & -> & _ & _ & Hor).
    intros [= <-] p m. simpl. destruct (Hor p) as [-> | ->].
    + apply Hinv.
    + destruct (heap s !! p); [|done]. by intros [= <-].
  - intros Hd. apply dispatch_frame in Hd as (Hh & _ & _).
    rewrite Hh. exact Hinv.
Qed.

Lemma run_ops_unloaded os : ∀ s s',
  state_ok s →
  (∀ p m, heap s !! p = Some m → type m = MODULE_TYPE_RECVBYTE →
     loaded m = false → scriptInterface m = None) →
  run_ops as_int as_uint os s = Some (tt, s') →
  ∀ p m, heap s' !! p = Some m → type m = MODULE_TYPE_RECVBYTE →
    loaded m = false → scriptInterface m = None.
Proof.
  induction os as [|o os IH]; intros s s' Hok Hinv; simpl.
  - by intros [= <-].
  - unfold bind.
    destruct (run_op as_int as_uint o s) as [[[] s1]|] eqn:Hop; [|done].
    apply IH; [by eapply run_op_ok | by eapply run_op_unloaded].
Qed.

End Unloaded.

(** X18. In every state reached from a new registry, a record of kind
    on-receive-byte that is not loaded refers to no runtime: once the kind
    is set, [loaded] goes from true to false only where the runtime
    reference is set to null, or is copied together with it. *)
Theorem unloaded_records_have_no_runtime (as_int as_uint : string → Z)
    (ps : gmap Z Player) (envs : nat) (os : list Op) (s : State)
    (p : positive) (m : ModuleObj) :
  run_ops as_int as_uint os (Modules_new ps envs) = Some (tt, s) →
  heap s !! p = Some m →
  type m = MODULE_TYPE_RECVBYTE →
  loaded m = false →
  scriptInterface m = None.
Proof.
  intros Hrun. eapply run_ops_unloaded; [apply Modules_new_ok| |exact Hrun].
  intros q m'. simpl. by rewrite lookup_empty.
Qed.

Lemma unloaded_records_have_no_runtime_witness :
  ∃ s m,
    run_ops read_decimal read_decimal (load node7 1 ++ [OpClear]) (world 16)
    = Some (tt, s)
    ∧ heap s !! 1%positive = Some m
    ∧ scriptInterface m = None.
Proof.
  eexists. eexists.
  split; [vm_compute; reflexivity|].
  split; [vm_compute; reflexivity|].
  eapply (unloaded_records_have_no_runtime read_decimal read_decimal
            {[ 42 := alice ]} 16%nat (load node7 1 ++ [OpClear]) _
            1%positive).
  - vm_compute. reflexivity.
  - vm_compute. reflexivity.
  - reflexivity.
  - reflexivity.
Defined.

(** *** The event name and the result of a registration *)

(** X19. [getScriptEventName] is "onRecvbyte" for every record stored in a
    state reached from a new registry, whether its binding has been cleared
    or copied; it is empty exactly for records of kind none, and
    [copyEvent] and [clearEvent] do not change it. *)
Theorem stored_records_are_named :
  (∀ (as_int as_uint : string → Z) (ps : gmap Z Player) (envs : nat)
     (os : list Op) (s : State) (k : Z) (p : positive) (m : ModuleObj),
     run_ops as_int as_uint os (Modules_new ps envs) = Some (tt, s) →
     recvbyteList s !! k = Some p →
     heap s !! p = Some m →
     Module_getScriptEventName m = "onRecvbyte")
  ∧ (∀ m, Module_getScriptEventName m = "" ↔ type m = MODULE_TYPE_NONE)
  ∧ (∀ m o,
       Module_getScriptEventName (Module_copyEvent m o)
       = Module_getScriptEventName o
       ∧ Module_getScriptEventName (Module_clearEvent o)
         = Module_getScriptEventName o).
Proof.
  split; [|split].
  - intros as_int as_uint ps envs os s k p m Hrun Hk Hm.
    pose proof (run_ops_ok _ _ _ _ _ (Modules_new_ok ps envs) Hrun)
      as (_ & _ & Hty).
    unfold Module_getScriptEventName. by rewrite (Hty k p m Hk Hm).
  - intros m. unfold Module_getScriptEventName. by destruct (type m).
  - done.
Qed.

Lemma stored_records_are_named_witness :
  ∃ s m,
    run_ops read_decimal read_decimal (load node7 1 ++ [OpClear]) (world 16)
    = Some (tt, s)
    ∧ heap s !! 1%positive = Some m
    ∧ Module_getScriptEventName m = "onRecvbyte".
Proof.
  eexists. eexists.
  split; [vm_compute; reflexivity|].
  split; [vm_compute; reflexivity|].
  eapply (proj1 stored_records_are_named read_decimal read_decimal
            {[ 42 := alice ]} 16%nat (load node7 1 ++ [OpClear]) _ 7
            1%positive).
  - vm_compute. reflexivity.
  - vm_compute. reflexivity.
  - vm_compute. reflexivity.
Defined.

(** X20. On a registry whose stored pointers hold objects, [registerEvent]
    returns; it returns true exactly when the record has a kind and its
    opcode is either absent from the map or stored with a record that is
    not loaded and has the same kind. It logs one line when the record has
    no kind and nothing otherwise. *)
Theorem registerEvent_succeeds_exactly (s : State) (p : positive)
    (m : ModuleObj) (node : xml_node) :
  registry_closed s →
  heap s !! p = Some m →
  ∃ b s',
    Modules_registerEvent p node s = Some (b, s')
    ∧ (b = true
       ↔ type m ≠ MODULE_TYPE_NONE
         ∧ (recvbyteList s !! recvbyte m = None
            ∨ ∃ old o,
                recvbyteList s !! recvbyte m = Some old
                ∧ heap s !! old = Some o
                ∧ loaded o = false ∧ type o = type m))
    ∧ logger s'
      = if decide (type m = MODULE_TYPE_NONE)
        then logger s ++ ["Trying to register event without type!"]
        else logger s.
Proof.
  intros Hcl Hm.
  rewrite (registerEvent_unfold _ _ _ m) by done.
  unfold register_outcome.
  destruct (decide (type m = MODULE_TYPE_NONE)) as [Hn|Hn]; simpl.
  { eexists _, _. split; [done|]. split; [|done].
    split; [done|]. by intros [? _]. }
  destruct (recvbyteList s !! recvbyte m) as [old|] eqn:Hold; simpl.
  - destruct (Hcl _ _ Hold) as [_ [o Ho]]. rewrite Ho.
    destruct (loaded o) eqn:Hl; simpl.
    + eexists _, _. split; [done|]. split; [|done].
      split; [done|]. intros [_ [? | (old' & o' & [= <-] & Ho' & Hl' & _)]];
        [done|]. congruence.
    + destruct (bool_decide (type o = type m)) eqn:Hty; simpl.
      * apply bool_decide_eq_true in Hty.
        eexists _, _. split; [done|]. split; [|done].
        split; [|done]. intros _. split; [done|]. right. by exists old, o.
      * apply bool_decide_eq_false in Hty.
        eexists _, _. split; [done|]. split; [|done].
        split; [done|].
        intros [_ [? | (old' & o' & [= <-] & Ho' & _ & Hty')]]; [done|].
        congruence.
  - eexists _, _. split; [done|]. split; [|done].
    split; [|done]. intros _. split; [done|]. by left.
Qed.

Lemma registerEvent_succeeds_exactly_witness :
  ∃ b s',
    Modules_registerEvent 3 [] (registry_with bound7 16) = Some (b, s')
    ∧ (b = true
       ↔ type unconfigured ≠ MODULE_TYPE_NONE
         ∧ (recvbyteList (registry_with bound7 16) !! recvbyte unconfigured
            = None
            ∨ ∃ old o,
                recvbyteList (registry_with bound7 16)
                  !! recvbyte unconfigured = Some old
                ∧ heap (registry_with bound7 16) !! old = Some o
                ∧ loaded o = false ∧ type o = type unconfigured))
    ∧ logger s'
      = if decide (type unconfigured = MODULE_TYPE_NONE)
        then logger (registry_with bound7 16)
             ++ ["Trying to register event without type!"]
        else logger (registry_with bound7 16).
Proof.
  apply (registerEvent_succeeds_exactly (registry_with bound7 16) 3
           unconfigured []).
  - apply (bool_decide_unpack _). vm_compute. exact I.
  - reflexivity.
Defined.
